(** * a3-transcoder: the worker's job processing engine

    A shallow embedding of [common/config.py], [worker/transcode.py],
    [worker/worker.py] and [api/dal.py].

    Python code that talks to AWS, the clock or the encoder process is
    written in a small monad [M]: a computation takes the [World] (the job
    table plus the scripted behaviour of everything outside the process),
    and yields a Python result (a value or a raised exception), the world
    afterwards and the external calls it issued, in order. *)

From Stdlib Require Import ZArith Ascii String.
From stdpp Require Import gmap strings list fin_maps pretty.

Open Scope string_scope.
Open Scope list_scope.

(** ** Python exceptions and results *)

Inductive Exn :=
  | KeyError (key : string)
  | TypeError (msg : string)
  | AttributeError (msg : string)
  | ValueError (msg : string)
  | RuntimeError (msg : string)
  | ClientError (code : string) (msg : string)  (* botocore.exceptions.ClientError *)
  | OtherException (msg : string).              (* any other subclass of Exception *)

Inductive Result (A : Type) :=
  | Ok (a : A)
  | Raise (e : Exn).
Arguments Ok {A} a.
Arguments Raise {A} e.

Module Py.

(** [str(e)]; a [KeyError] prints the repr of its key. *)
Definition str_exn (e : Exn) : string :=
  match e with
  | KeyError k => "'" +:+ k +:+ "'"
  | TypeError m | AttributeError m | ValueError m
  | RuntimeError m | OtherException m => m
  | ClientError _ m => m
  end.

Definition newline : string := String (ascii_of_nat 10%nat) EmptyString.

(** ASCII part of [str.isspace]. *)
Definition isspace (c : ascii) : bool :=
  let n := nat_of_ascii c in
  (((9 <=? n) && (n <=? 13)) || ((28 <=? n) && (n <=? 32)))%nat.

Fixpoint lstrip (s : string) : string :=
  match s with
  | String c s' => if isspace c then lstrip s' else s
  | EmptyString => EmptyString
  end.

(** [s.strip()] *)
Definition strip (s : string) : string :=
  String.rev (lstrip (String.rev (lstrip s))).

Definition lower_ascii (c : ascii) : ascii :=
  let n := nat_of_ascii c in
  if ((65 <=? n) && (n <=? 90))%nat then ascii_of_nat (n + 32)%nat else c.

(** [s.lower()] on ASCII text. *)
Fixpoint lower (s : string) : string :=
  match s with
  | String c s' => String (lower_ascii c) (lower s')
  | EmptyString => EmptyString
  end.

(** [sep.join(l)] *)
Fixpoint join (sep : string) (l : list string) : string :=
  match l with
  | [] => ""
  | [x] => x
  | x :: rest => x +:+ sep +:+ join sep rest
  end.

(** [repr] of a list of plain strings: ['a', 'b']. *)
Definition repr_list (l : list string) : string :=
  "[" +:+ join ", " (map (λ s, "'" +:+ s +:+ "'") l) +:+ "]".

(** Truth value of an optional string ([None] and [""] are false). *)
Definition truthy (v : option string) : bool :=
  match v with
  | None => false
  | Some s => negb (bool_decide (s = ""))
  end.

(** An insertion-ordered [dict] with string keys, as a list of items. *)
Definition dict := list (string * string).

Fixpoint dict_get (d : dict) (k : string) : option string :=
  match d with
  | [] => None
  | (k', v) :: rest => if String.eqb k' k then Some v else dict_get rest k
  end.

(** [d[k] = v]: overwrite in place, or append. *)
Fixpoint dict_set (d : dict) (k v : string) : dict :=
  match d with
  | [] => [(k, v)]
  | (k', v') :: rest =>
      if String.eqb k' k then (k', v) :: rest else (k', v') :: dict_set rest k v
  end.

(** The value [json.loads] returns for a message body: an object whose
    fields are strings (the queue message schema), or a value that is not
    an object (a list, a number, a string, [null], ...).  Objects with
    fields of other types are outside the model. *)
Inductive json :=
  | JDict (d : gmap string string)
  | JOther.

(** [body[k]] *)
Definition getitem (body : json) (k : string) : Result string :=
  match body with
  | JDict d => match d !! k with Some v => Ok v | None => Raise (KeyError k) end
  | JOther => Raise (TypeError "object is not subscriptable with a str")
  end.

(** [body.get(k, dflt)] *)
Definition get (body : json) (k dflt : string) : Result string :=
  match body with
  | JDict d => Ok (default dflt (d !! k))
  | JOther => Raise (AttributeError "object has no attribute 'get'")
  end.

End Py.

(** ** common/config.py *)

Module Config.
Section WithInt.

(** Python's [int(str)]; the module only needs what it does on the
    default literals. *)
Variable py_int : string → option Z.

(** The module-level constants, computed from [os.environ] at import. *)
Record Settings := mkSettings {
  AWS_REGION : string;
  S3_BUCKET : option string;
  SQS_URL : option string;
  DLQ_URL : option string;
  DDB_JOBS_TABLE : string;
  JWT_SECRET : string;
  JWT_ALG : string;
  PRESIGN_EXP_SECS : Z;
  MAX_VIS_TIMEOUT : Z
}.

Definition int_of (s : string) : Result Z :=
  match py_int s with
  | Some z => Ok z
  | None => Raise (ValueError ("invalid literal for int() with base 10: '" +:+ s +:+ "'"))
  end.

(** Importing the module: every [os.getenv] with its default. *)
Definition load (environ : gmap string string) : Result Settings :=
  match int_of (default "900" (environ !! "PRESIGN_EXP_SECS")) with
  | Raise e => Raise e
  | Ok presign =>
      match int_of (default "1800" (environ !! "MAX_VIS_TIMEOUT")) with
      | Raise e => Raise e
      | Ok vis =>
          Ok {| AWS_REGION := default "ap-southeast-2" (environ !! "AWS_REGION");
                S3_BUCKET := environ !! "S3_BUCKET";
                SQS_URL := environ !! "SQS_URL";
                DLQ_URL := environ !! "DLQ_URL";
                DDB_JOBS_TABLE := default "a3_jobs" (environ !! "DDB_JOBS_TABLE");
                JWT_SECRET := default "dev-secret-change-me" (environ !! "JWT_SECRET");
                JWT_ALG := "HS256";
                PRESIGN_EXP_SECS := presign;
                MAX_VIS_TIMEOUT := vis |}
      end
  end.

(** The names [assert_core_env] reports: those whose value is falsy. *)
Definition missing (cfg : Settings) : list string :=
  map fst
    (filter (λ kv, Py.truthy kv.2 = false)
       [("S3_BUCKET", S3_BUCKET cfg);
        ("SQS_URL", SQS_URL cfg);
        ("DDB_JOBS_TABLE", Some (DDB_JOBS_TABLE cfg))]).

Definition assert_core_env (cfg : Settings) : Result unit :=
  match missing cfg with
  | [] => Ok tt
  | m => Raise (RuntimeError ("Missing required env vars: " +:+ Py.repr_list m))
  end.

(** Process start-up of the worker: import [common.config], then the
    first statement of [main]. *)
Definition startup (environ : gmap string string) : Result Settings :=
  match load environ with
  | Raise e => Raise e
  | Ok cfg => match assert_core_env cfg with
              | Raise e => Raise e
              | Ok _ => Ok cfg
              end
  end.

End WithInt.

End Config.

(** ** The world outside the worker process *)

(** A job record: a DynamoDB item whose attributes are strings. *)
Abbreviation Item := (gmap string string).

(** One delivery of a queue message. *)
Record SqsMessage := mkMsg { Body : string; ReceiptHandle : string }.

(** The external calls the code issues, each with what it answered. *)
Inductive Event :=
  | GetItem (job_id : string) (r : Result (option Item))
  | UpdateItem (job_id : string) (sets : Py.dict) (r : Result Item)
  | PutItem (item : Item)
  | DownloadFile (key dest : string) (r : option Exn)
  | UploadFile (src key : string) (r : option Exn)
  | SubprocessRun (cmd : list string) (returncode : Z) (stderr : string)
  | DeleteMessage (receipt_handle : string) (r : option Exn)
  | ReceiveMessage (wait_s visibility : Z) (msgs : list SqsMessage)
  | ExtenderStart (receipt_handle : string)
  | ExtenderStop (receipt_handle : string).

(** The job table, and the script of the environment: what the clock will
    read, and how the coming calls to each service will end ([Some e]: the
    call raises [e]).  A script that has run out answers with success. *)
Record World := mkWorld {
  jobs : gmap string Item;
  clock : list string;
  tmpdir : string;
  get_item_faults : list (option Exn);
  update_item_faults : list (option Exn);
  download_faults : list (option Exn);
  encoder_exits : list (Z * string);
  upload_faults : list (option Exn);
  delete_faults : list (option Exn);
  receive_batches : list (list SqsMessage)
}.

Definition set_jobs (j : gmap string Item) (w : World) : World :=
  mkWorld j (clock w) (tmpdir w) (get_item_faults w) (update_item_faults w)
    (download_faults w) (encoder_exits w) (upload_faults w) (delete_faults w)
    (receive_batches w).
Definition set_clock (c : list string) (w : World) : World :=
  mkWorld (jobs w) c (tmpdir w) (get_item_faults w) (update_item_faults w)
    (download_faults w) (encoder_exits w) (upload_faults w) (delete_faults w)
    (receive_batches w).
Definition set_get_item_faults (l : list (option Exn)) (w : World) : World :=
  mkWorld (jobs w) (clock w) (tmpdir w) l (update_item_faults w)
    (download_faults w) (encoder_exits w) (upload_faults w) (delete_faults w)
    (receive_batches w).
Definition set_update_item_faults (l : list (option Exn)) (w : World) : World :=
  mkWorld (jobs w) (clock w) (tmpdir w) (get_item_faults w) l
    (download_faults w) (encoder_exits w) (upload_faults w) (delete_faults w)
    (receive_batches w).
Definition set_download_faults (l : list (option Exn)) (w : World) : World :=
  mkWorld (jobs w) (clock w) (tmpdir w) (get_item_faults w) (update_item_faults w)
    l (encoder_exits w) (upload_faults w) (delete_faults w) (receive_batches w).
Definition set_encoder_exits (l : list (Z * string)) (w : World) : World :=
  mkWorld (jobs w) (clock w) (tmpdir w) (get_item_faults w) (update_item_faults w)
    (download_faults w) l (upload_faults w) (delete_faults w) (receive_batches w).
Definition set_upload_faults (l : list (option Exn)) (w : World) : World :=
  mkWorld (jobs w) (clock w) (tmpdir w) (get_item_faults w) (update_item_faults w)
    (download_faults w) (encoder_exits w) l (delete_faults w) (receive_batches w).
Definition set_delete_faults (l : list (option Exn)) (w : World) : World :=
  mkWorld (jobs w) (clock w) (tmpdir w) (get_item_faults w) (update_item_faults w)
    (download_faults w) (encoder_exits w) (upload_faults w) l (receive_batches w).
Definition set_receive_batches (l : list (list SqsMessage)) (w : World) : World :=
  mkWorld (jobs w) (clock w) (tmpdir w) (get_item_faults w) (update_item_faults w)
    (download_faults w) (encoder_exits w) (upload_faults w) (delete_faults w) l.

(** How the next call of a service ends. *)
Definition next_fault (script : list (option Exn)) : option Exn :=
  match script with
  | f :: _ => f
  | [] => None
  end.

(** ** The monad of effectful Python code *)

Record Run (A : Type) := mkRun {
  res : Result A;         (* returned value, or the exception raised *)
  post : World;           (* the world afterwards *)
  emitted : list Event    (* external calls issued, oldest first *)
}.
Arguments mkRun {A} res post emitted.
Arguments res {A} r.
Arguments post {A} r.
Arguments emitted {A} r.

Definition M (A : Type) : Type := World → Run A.

Definition ret {A} (a : A) : M A := λ w, mkRun (Ok a) w [].

Definition raise {A} (e : Exn) : M A := λ w, mkRun (Raise e) w [].

Definition bind {A B} (m : M A) (f : A → M B) : M B := λ w,
  match m w with
  | mkRun (Ok a) w1 ev1 =>
      match f a w1 with
      | mkRun r w2 ev2 => mkRun r w2 (ev1 ++ ev2)
      end
  | mkRun (Raise e) w1 ev1 => mkRun (Raise e) w1 ev1
  end.

(** A pure step that may raise. *)
Definition lift {A} (r : Result A) : M A := λ w, mkRun r w [].

(** [try: m  except Exception as e: h e] *)
Definition try_except {A} (m : M A) (h : Exn → M A) : M A := λ w,
  match m w with
  | mkRun (Ok a) w1 ev1 => mkRun (Ok a) w1 ev1
  | mkRun (Raise e) w1 ev1 =>
      match h e w1 with
      | mkRun r w2 ev2 => mkRun r w2 (ev1 ++ ev2)
      end
  end.

(** [try: m  finally: c]: [c] always runs; an exception of [c] wins. *)
Definition try_finally {A} (m : M A) (c : M unit) : M A := λ w,
  match m w with
  | mkRun r w1 ev1 =>
      match c w1 with
      | mkRun (Ok _) w2 ev2 => mkRun r w2 (ev1 ++ ev2)
      | mkRun (Raise e) w2 ev2 => mkRun (Raise e) w2 (ev1 ++ ev2)
      end
  end.

Global Instance M_ret : MRet M := λ A a, ret a.
Global Instance M_bind : MBind M := λ A B f m, bind m f.

(** ** The AWS clients, the clock and the encoder process

    The boundary of the repository: what the calls of boto3's DynamoDB
    table, S3 and SQS clients, of [time], [tempfile] and [subprocess] do to
    the world.  Logging is not modelled. *)

Module Aws.

(** A [ConditionExpression], over expression placeholders. *)
Inductive Cond :=
  | AttributeNotExists (attr : string)    (* attribute_not_exists(attr) *)
  | NotEqual (name_ph value_ph : string)  (* #n <> :v *)
  | Or (a b : Cond).

(** An [UpdateExpression] "SET #k1 = :v1, #k2 = :v2, ..." is kept as the
    list of its clauses, each a name and a value placeholder. *)
Definition resolve_clause (names vals : Py.dict) (cl : string * string)
  : option (string * string) :=
  match Py.dict_get names cl.1, Py.dict_get vals cl.2 with
  | Some k, Some v => Some (k, v)
  | _, _ => None
  end.

Definition resolve_set (names vals : Py.dict) (clauses : list (string * string))
  : option Py.dict :=
  mapM (resolve_clause names vals) clauses.

(** Whether the stored item (if any) passes the condition; [None] when a
    placeholder is undefined.  A comparison [<>] on an attribute the item
    does not have holds. *)
Fixpoint eval_cond (names vals : Py.dict) (c : Cond) (stored : option Item)
  : option bool :=
  match c with
  | AttributeNotExists a =>
      Some (match stored ≫= (.!! a) with Some _ => false | None => true end)
  | NotEqual n v =>
      match Py.dict_get names n, Py.dict_get vals v with
      | Some attr, Some x =>
          Some (match stored ≫= (.!! attr) with
                | Some y => negb (bool_decide (y = x))
                | None => true
                end)
      | _, _ => None
      end
  | Or a b =>
      match eval_cond names vals a stored, eval_cond names vals b stored with
      | Some x, Some y => Some (x || y)
      | _, _ => None
      end
  end.

(** The item after the SET clauses: each attribute is overwritten or added. *)
Definition apply_set (sets : Py.dict) (it : Item) : Item :=
  foldl (λ acc kv, <[kv.1 := kv.2]> acc) it sets.

Definition invalid : Exn :=
  ClientError "ValidationException" "Invalid expression".
Definition conditional_check_failed : Exn :=
  ClientError "ConditionalCheckFailedException" "The conditional request failed".

(** [table.get_item(Key={"jobId": job_id}).get("Item")] *)
Definition get_item (job_id : string) : M (option Item) := λ w,
  let w' := set_get_item_faults (tail (get_item_faults w)) w in
  match next_fault (get_item_faults w) with
  | Some e => mkRun (Raise e) w' [GetItem job_id (Raise e)]
  | None => mkRun (Ok (jobs w !! job_id)) w' [GetItem job_id (Ok (jobs w !! job_id))]
  end.

(** [table.put_item(Item=item)]: the item replaces what its key held. *)
Definition put_item (item : Item) : M unit := λ w,
  match item !! "jobId" with
  | Some job_id => mkRun (Ok tt) (set_jobs (<[job_id := item]> (jobs w)) w) [PutItem item]
  | None => mkRun (Raise invalid) w [PutItem item]
  end.

(** [table.update_item(Key={"jobId": job_id}, UpdateExpression=...,
    ConditionExpression=..., ExpressionAttributeNames=names,
    ExpressionAttributeValues=vals)].  Without a condition the write is
    an upsert: a missing item is created from the key. *)
Definition update_item (job_id : string) (clauses : list (string * string))
    (cond : option Cond) (names vals : Py.dict) : M Item := λ w,
  let w' := set_update_item_faults (tail (update_item_faults w)) w in
  let stored := jobs w !! job_id in
  match resolve_set names vals clauses,
        match cond with Some c => eval_cond names vals c stored | None => Some true end with
  | Some sets, Some passes =>
      match next_fault (update_item_faults w) with
      | Some e => mkRun (Raise e) w' [UpdateItem job_id sets (Raise e)]
      | None =>
          if passes then
            let it := apply_set sets (default {[ "jobId" := job_id ]} stored) in
            mkRun (Ok it) (set_jobs (<[job_id := it]> (jobs w)) w')
                  [UpdateItem job_id sets (Ok it)]
          else
            mkRun (Raise conditional_check_failed) w'
                  [UpdateItem job_id sets (Raise conditional_check_failed)]
      end
  | _, _ => mkRun (Raise invalid) w' [UpdateItem job_id [] (Raise invalid)]
  end.

(** [s3.download_file(S3_BUCKET, key, dest)] *)
Definition download_file (key dest : string) : M unit := λ w,
  let w' := set_download_faults (tail (download_faults w)) w in
  match next_fault (download_faults w) with
  | Some e => mkRun (Raise e) w' [DownloadFile key dest (Some e)]
  | None => mkRun (Ok tt) w' [DownloadFile key dest None]
  end.

(** [s3.upload_file(src, S3_BUCKET, key)] *)
Definition upload_file (src key : string) : M unit := λ w,
  let w' := set_upload_faults (tail (upload_faults w)) w in
  match next_fault (upload_faults w) with
  | Some e => mkRun (Raise e) w' [UploadFile src key (Some e)]
  | None => mkRun (Ok tt) w' [UploadFile src key None]
  end.

(** [sqs.delete_message(QueueUrl=SQS_URL, ReceiptHandle=rh)] *)
Definition delete_message (rh : string) : M unit := λ w,
  let w' := set_delete_faults (tail (delete_faults w)) w in
  match next_fault (delete_faults w) with
  | Some e => mkRun (Raise e) w' [DeleteMessage rh (Some e)]
  | None => mkRun (Ok tt) w' [DeleteMessage rh None]
  end.

(** [sqs.receive_message(...).get("Messages", [])] *)
Definition receive_message (wait_s visibility : Z) : M (list SqsMessage) := λ w,
  let msgs := default [] (head (receive_batches w)) in
  mkRun (Ok msgs) (set_receive_batches (tail (receive_batches w)) w)
        [ReceiveMessage wait_s visibility msgs].

(** [time.strftime("%Y-%m-%dT%H:%M:%SZ", time.gmtime())] *)
Definition strftime_now : M string := λ w,
  mkRun (Ok (default "1970-01-01T00:00:00Z" (head (clock w))))
        (set_clock (tail (clock w)) w) [].

(** [tempfile.TemporaryDirectory()]: the directory's name. *)
Definition temporary_directory : M string := λ w, mkRun (Ok (tmpdir w)) w [].

(** [subprocess.run(cmd, ...)]: return code and captured stderr. *)
Definition subprocess_run (cmd : list string) : M (Z * string) := λ w,
  let proc := default (0%Z, "") (head (encoder_exits w)) in
  mkRun (Ok proc) (set_encoder_exits (tail (encoder_exits w)) w)
        [SubprocessRun cmd proc.1 proc.2].

End Aws.

(** ** worker/transcode.py *)

Module Transcode.

(** The inner dict of a preset: width, height and CRF. *)
Record PresetSpec := mkSpec { width : Z; height : Z; crf : Z }.

Definition PRESET_SPECS : gmap string PresetSpec :=
  list_to_map
    [("mp4-1080p", mkSpec 1920 1080 23);
     ("mp4-720p", mkSpec 1280 720 23);
     ("mp4-480p", mkSpec 854 480 24);
     ("mp4-360p", mkSpec 640 360 25)].

(** [PRESET_SPECS.get(preset, PRESET_SPECS["mp4-720p"])]; the default
    argument is evaluated first and would raise if the key were gone. *)
Definition resolve (preset : string) : Result PresetSpec :=
  match PRESET_SPECS !! "mp4-720p" with
  | Some dflt => Ok (default dflt (PRESET_SPECS !! preset))
  | None => Raise (KeyError "mp4-720p")
  end.

Definition _args_for_intensity (level : string) : list string :=
  let level := Py.lower (if bool_decide (level = "") then "high" else level) in
  if bool_decide (level = "low") then
    ["-c:v"; "libx264"; "-preset"; "faster"; "-threads"; "0"]
  else if bool_decide (level = "medium") then
    ["-c:v"; "libx264"; "-preset"; "slow"; "-threads"; "0"]
  else if bool_decide (level = "max") then
    ["-c:v"; "libx264"; "-preset"; "placebo"; "-tune"; "film"; "-threads"; "0";
     "-x264-params"; "me=tesa:subme=10:merange=64:ref=6:rc-lookahead=60"]
  else
    ["-c:v"; "libx264"; "-preset"; "veryslow"; "-threads"; "0"].

Definition video_args (spec : PresetSpec) (intensity : string) : list string :=
  ["-vf"; "scale=" +:+ pretty (width spec) +:+ ":" +:+ pretty (height spec)
            +:+ ":flags=lanczos"]
  ++ _args_for_intensity intensity
  ++ ["-crf"; pretty (crf spec); "-pix_fmt"; "yuv420p";
      "-movflags"; "+faststart"; "-an"].

Definition command (in_path out_path : string) (spec : PresetSpec)
    (intensity : string) : list string :=
  ["ffmpeg"; "-y"; "-hide_banner"; "-loglevel"; "error"; "-i"; in_path]
  ++ video_args spec intensity ++ [out_path].

Definition failure_text (rc : Z) (cmd : list string) (stderr : string) : string :=
  "ffmpeg failed (" +:+ pretty rc +:+ "). Cmd: " +:+ Py.join " " cmd
  +:+ Py.newline +:+ Py.strip stderr.

(** [run_ffmpeg(in_path, out_path, preset=..., intensity=...)], at paths
    that [Path] renders as they are and with the parent directory of
    [out_path] in place, as for the files [process_message] passes: there
    [Path(...)] and the [mkdir] change nothing and are not modelled. *)
Definition run_ffmpeg (in_path out_path preset intensity : string) : M string :=
  spec ← lift (resolve preset);
  let cmd := command in_path out_path spec intensity in
  proc ← Aws.subprocess_run cmd;
  if bool_decide (proc.1 ≠ 0%Z) then
    raise (RuntimeError (failure_text proc.1 cmd proc.2))
  else
    ret out_path.

End Transcode.

(** ** worker/worker.py *)

Module Worker.

Definition _now : M string := Aws.strftime_now.

Definition _get_job (job_id : string) : M (option Item) := Aws.get_item job_id.

(** The placeholder dicts and the SET clauses [_update_job] builds from
    the fields, numbered from 1. *)
Definition names_of (fields : Py.dict) : Py.dict :=
  imap (λ i kv, ("#k" +:+ pretty (S i), kv.1)) fields.
Definition vals_of (fields : Py.dict) : Py.dict :=
  imap (λ i kv, (":v" +:+ pretty (S i), kv.2)) fields.
Definition expr_of (names vals : Py.dict) : list (string * string) :=
  zip (map fst names) (map fst vals).

(** The [except ClientError as e] clause of [_update_job]: a failed
    condition is logged and ignored, anything else is raised again. *)
Definition ignore_conditional (e : Exn) : M unit :=
  match e with
  | ClientError code _ =>
      if bool_decide (code = "ConditionalCheckFailedException")
      then ret tt
      else raise e
  | _ => raise e
  end.

(** [_update_job(job_id, **fields)] *)
Definition _update_job (job_id : string) (fields : Py.dict) : M unit :=
  t ← _now;
  let fields := Py.dict_set fields "updatedAt" t in
  let names := names_of fields in
  let vals := vals_of fields in
  let expr := expr_of names vals in
  try_except
    (Aws.update_item job_id expr None names vals;; ret tt)
    ignore_conditional.

Definition _download_from_s3 (key dest_path : string) : M unit :=
  Aws.download_file key dest_path.

Definition _upload_to_s3 (src_path key : string) : M unit :=
  Aws.upload_file src_path key.

Definition _delete_msg (receipt_handle : string) : M unit :=
  Aws.delete_message receipt_handle.

(** [VisibilityExtender]: only the points where the background thread is
    started and stopped are recorded; what the thread does in between
    (a lease extension every [period_sec]) is concurrent with the job. *)
Definition extender_start (receipt_handle : string) : M unit :=
  λ w, mkRun (Ok tt) w [ExtenderStart receipt_handle].
Definition extender_stop (receipt_handle : string) : M unit :=
  λ w, mkRun (Ok tt) w [ExtenderStop receipt_handle].

(** [job and job.get("status") in {"RUNNING", "DONE"}] *)
Definition redundant (job : option Item) : bool :=
  match job with
  | Some it =>
      negb (bool_decide (it = ∅))
      && match it !! "status" with
         | Some s => bool_decide (s = "RUNNING") || bool_decide (s = "DONE")
         | None => false
         end
  | None => false
  end.

(** The body of [process_message] below the idempotency guard. *)
Definition after_guard (job_id inputKey preset receipt_handle : string) : M unit :=
  started ← _now;
  _update_job job_id [("status", "RUNNING"); ("startedAt", started)];;
  td ← Aws.temporary_directory;
  let local_in := td +:+ "/input.mp4" in
  let local_out := td +:+ "/output.mp4" in
  _download_from_s3 inputKey local_in;;
  try_finally
    (try_except
       (extender_start receipt_handle;;
        Transcode.run_ffmpeg local_in local_out preset "high";;
        let outputKey := "output/" +:+ job_id +:+ ".mp4" in
        _upload_to_s3 local_out outputKey;;
        finished ← _now;
        _update_job job_id
          [("status", "DONE"); ("outputKey", outputKey); ("finishedAt", finished)];;
        _delete_msg receipt_handle)
       (λ e,
          finished ← _now;
          _update_job job_id
            [("status", "FAILED"); ("error", Py.str_exn e); ("finishedAt", finished)]))
    (try_except (extender_stop receipt_handle) (λ _, ret tt)).

Definition process_message (msg_body : Py.json) (receipt_handle : string) : M unit :=
  job_id ← lift (Py.getitem msg_body "jobId");
  inputKey ← lift (Py.getitem msg_body "inputKey");
  preset ← lift (Py.get msg_body "preset" "mp4-720p");
  job ← _get_job job_id;
  if redundant job then _delete_msg receipt_handle
  else after_guard job_id inputKey preset receipt_handle.

(** [WaitTimeSeconds=20], the literal poll wait of [main]'s receive call. *)
Definition WAIT_TIME_SECONDS : Z := 20.

Section Main.

(** [json.loads]; [None] when it raises. *)
Variable json_loads : string → option Py.json.
(** The value of [MAX_VIS_TIMEOUT]. *)
Variable max_vis_timeout : Z.

(** [for m in msgs: ...] *)
Fixpoint for_msgs (msgs : list SqsMessage) : M unit :=
  match msgs with
  | [] => ret tt
  | m :: rest =>
      match json_loads (Body m) with
      | None => _delete_msg (ReceiptHandle m);; for_msgs rest
      | Some body => process_message body (ReceiptHandle m);; for_msgs rest
      end
  end.

(** The first [n] rounds of [while True: ...]; the loop has no exit, so
    [Ok] means the worker is still polling after them and [Raise] that
    an exception ended the process. *)
Fixpoint poll_loop (n : nat) : M unit :=
  match n with
  | O => ret tt
  | S n' =>
      msgs ← Aws.receive_message WAIT_TIME_SECONDS max_vis_timeout;
      for_msgs msgs;;
      poll_loop n'
  end.

End Main.

(** [main()], observed for [n] rounds of its loop. *)
Definition main (py_int : string → option Z) (json_loads : string → option Py.json)
    (environ : gmap string string) (n : nat) : M unit :=
  cfg ← lift (Config.startup py_int environ);
  poll_loop json_loads (Config.MAX_VIS_TIMEOUT cfg) n.

End Worker.

(** ** api/dal.py *)

Module Dal.

Definition now_iso : M string := Aws.strftime_now.

(** [put_job(item)] *)
Definition put_job (item : Item) : M unit :=
  t ← now_iso;
  let item := match item !! "createdAt" with
              | Some _ => item
              | None => <["createdAt" := t]> item
              end in
  Aws.put_item item.

Definition get_job (job_id : string) : M (option Item) := Aws.get_item job_id.

(** [update_job(job_id, fields)]: the same SET update as the worker's,
    under the condition that the stored item is not DONE. *)
Definition update_job (job_id : string) (fields : Py.dict) : M Item :=
  t ← now_iso;
  let fields := Py.dict_set fields "updatedAt" t in
  let names := Worker.names_of fields in
  let values := Worker.vals_of fields in
  let update_expr := Worker.expr_of names values in
  let names := Py.dict_set names "#st" "status" in
  let values := Py.dict_set values ":done" "DONE" in
  Aws.update_item job_id update_expr
    (Some (Aws.Or (Aws.AttributeNotExists "jobId") (Aws.NotEqual "#st" ":done")))
    names values.

End Dal.

(** ** api/auth.py and api/main.py: login and job status

    FastAPI turns a raised [HTTPException] into the response; a handler's
    outcome is therefore a response body or a status code with its detail.
    Token signing and URL presigning are parameters. *)

Module Api.

Inductive Http (A : Type) :=
  | Response (body : A)
  | HTTPException (status_code : nat) (detail : string).
Arguments Response {A} body.
Arguments HTTPException {A} status_code detail.

(** An entry of [USERS]. *)
Record Account := mkAccount { password : string; role : string }.

Definition USERS : gmap string Account :=
  list_to_map
    [("admin", mkAccount "admin123" "admin");
     ("kimia", mkAccount "kimia123" "user");
     ("sara", mkAccount "sara123" "user")].

(** [validate_login(username, password)] *)
Definition validate_login (username pw : string) : bool :=
  match USERS !! username with
  | Some rec => bool_decide (password rec = pw)
  | None => false
  end.

Record LoginRes := mkLoginRes {
  access_token : string;
  token_type : string;
  login_role : string
}.

Section Handlers.

(** [create_access_token(sub, role)] and [presigned_get(key)]. *)
Variable create_access_token : string → string → string.
Variable presigned_get : string → string.

(** [POST /auth/login] *)
Definition login (username pw : string) : Result (Http LoginRes) :=
  if negb (validate_login username pw) then
    Ok (HTTPException 401 "Invalid credentials")
  else
    match USERS !! username with
    | None => Raise (KeyError username)
    | Some rec =>
        Ok (Response (mkLoginRes (create_access_token username (role rec))
                        "bearer" (role rec)))
    end.

(** [GET /jobs/{job_id}] for the authenticated [username]. *)
Definition job_status (job_id username : string) : M (Http Item) :=
  item ← Dal.get_job job_id;
  match item with
  | None => mret (HTTPException 404 "Job not found")
  | Some it =>
      if bool_decide (it = ∅) || negb (bool_decide (it !! "userId" = Some username))
      then mret (HTTPException 404 "Job not found")
      else if bool_decide (it !! "status" = Some "DONE") && Py.truthy (it !! "outputKey")
      then mret (Response (<["downloadUrl" := presigned_get (default "" (it !! "outputKey"))]> it))
      else mret (Response it)
  end.

End Handlers.

End Api.

(** ** Vocabulary of the statements *)

(** What the clock reads next, and the world once it has been read. *)
Definition reading (w : World) : string :=
  default "1970-01-01T00:00:00Z" (head (clock w)).
Definition tick (w : World) : World := set_clock (tail (clock w)) w.

(** The stored status of a job ([None]: no record, or no such attribute). *)
Definition status_of (job : option Item) : option string := job ≫= (.!! "status").

(** The encoder's next exit: return code and captured stderr. *)
Definition next_exit (w : World) : Z * string :=
  default (0%Z, "") (head (encoder_exits w)).

(** The parameters a preset name stands for. *)
Definition resolved (preset : string) : Transcode.PresetSpec :=
  default (Transcode.mkSpec 1280 720 23) (Transcode.PRESET_SPECS !! preset).

(** The [n]-th coming reading of the clock. *)
Definition stamp (n : nat) (w : World) : string :=
  default "1970-01-01T00:00:00Z" (clock w !! n).

(** The records the applied updates of a trace stored for job [j], oldest
    first, and their statuses. *)
Definition writes (j : string) (tr : list Event) : list Item :=
  omap (λ ev, match ev with
              | UpdateItem j' _ (Ok it) => if bool_decide (j' = j) then Some it else None
              | _ => None
              end) tr.
Definition statuses (j : string) (tr : list Event) : list (option string) :=
  (λ it : Item, it !! "status") <$> writes j tr.

(** The sequence of stored status values of job [j] over a run that starts
    in [w] and issues the calls [tr]. *)
Definition status_history (j : string) (w : World) (tr : list Event)
  : list (option string) :=
  status_of (jobs w !! j) :: statuses j tr.

(** One change of status the state machine allows: into RUNNING from
    anything but RUNNING and DONE (PENDING, FAILED on a retry, or no record),
    and from RUNNING into DONE or FAILED. *)
Definition step_ok (a b : option string) : bool :=
  (bool_decide (b = Some "RUNNING")
   && negb (bool_decide (a = Some "RUNNING")) && negb (bool_decide (a = Some "DONE")))
  || (bool_decide (a = Some "RUNNING")
      && (bool_decide (b = Some "DONE") || bool_decide (b = Some "FAILED"))).

(** Every consecutive pair of [a :: l] is an allowed change. *)
Fixpoint path_ok (a : option string) (l : list (option string)) : bool :=
  match l with
  | [] => true
  | b :: l' => step_ok a b && path_ok b l'
  end.

(** A scripted failure of [update_item] other than a failed condition: the
    service answers ConditionalCheckFailedException only to a request that
    carries a condition. *)
Definition benign (f : option Exn) : bool :=
  match f with
  | Some (ClientError code _) =>
      negb (bool_decide (code = "ConditionalCheckFailedException"))
  | _ => true
  end.

(** An environment in which no deletion of a queue message fails and
    [update_item] fails only in benign ways. *)
Definition calm (w : World) : bool :=
  forallb (λ f, bool_decide (f = None)) (delete_faults w)
  && forallb benign (update_item_faults w).

(** The status a path from [a] along [l] ends in. *)
Definition last_status (a : option string) (l : list (option string)) : option string :=
  List.last l a.

(** Over the calls [tr], the stored status of job [j] moved from its value
    in [w] to its value in [w'] by allowed changes only. *)
Definition tracks (j : string) (w : World) (tr : list Event) (w' : World) : Prop :=
  path_ok (status_of (jobs w !! j)) (statuses j tr) = true
  ∧ status_of (jobs w' !! j) = last_status (status_of (jobs w !! j)) (statuses j tr).

(** A computation that, in a calm environment, changes statuses by allowed
    changes only. *)
Definition ordered {A} (j : string) (m : M A) : Prop :=
  ∀ w, calm w = true → tracks j w (emitted (m w)) (post (m w)).

(** A computation whose final world is always related to its initial one. *)
Definition keeps {A} (R : relation World) (m : M A) : Prop :=
  ∀ w, R w (post (m w)).

(** The records of all jobs but [j] are the same in both worlds. *)
Definition same_except (j : string) : relation World :=
  λ w w', ∀ j', j' ≠ j → jobs w' !! j' = jobs w !! j'.

(** The job table is the same in both worlds. *)
Definition same_jobs : relation World := λ w w', jobs w' = jobs w.

(** Records that are DONE in the first world are the same in the second. *)
Definition done_kept : relation World :=
  λ w w', ∀ j (it : Item),
    jobs w !! j = Some it → it !! "status" = Some "DONE" → jobs w' !! j = Some it.

(** Calm environments stay calm. *)
Definition stays_calm : relation World := λ w w', calm w = true → calm w' = true.

(** In every record of the table, [outputKey] is present exactly when the
    status is DONE. *)
Definition output_inv (t : gmap string Item) : Prop :=
  ∀ j (it : Item), t !! j = Some it →
    (is_Some (it !! "outputKey") ↔ it !! "status" = Some "DONE").

(** A calm world whose table satisfies [output_inv]. *)
Definition settled (w : World) : Prop := calm w = true ∧ output_inv (jobs w).

(** A computation that takes settled worlds to settled worlds. *)
Definition preserves {A} (P : World → Prop) (m : M A) : Prop :=
  ∀ w, P w → P (post (m w)).

(** The field whose absence [process_message] reports first. *)
Definition first_missing (d : gmap string string) : string :=
  match d !! "jobId" with
  | None => "jobId"
  | Some _ => "inputKey"
  end.

(** Whether [_update_job] swallows a failure of [update_item]. *)
Definition swallowed (e : Exn) : bool :=
  match e with
  | ClientError code _ => bool_decide (code = "ConditionalCheckFailedException")
  | _ => false
  end.

(** A call one delivery of job [job_id] with handle [rh] may issue: reads
    and updates of that job, the download of its input, the upload to its
    output key, the deletion of its own message, the encoder and the lease
    extender; never a receive or a put. *)
Definition event_ok (job_id rh inputKey : string) (ev : Event) : bool :=
  match ev with
  | GetItem j _ => bool_decide (j = job_id)
  | UpdateItem j _ _ => bool_decide (j = job_id)
  | DownloadFile k _ _ => bool_decide (k = inputKey)
  | UploadFile _ k _ => bool_decide (k = "output/" +:+ job_id +:+ ".mp4")
  | DeleteMessage h _ => bool_decide (h = rh)
  | ExtenderStart h | ExtenderStop h => bool_decide (h = rh)
  | SubprocessRun _ _ _ => true
  | PutItem _ | ReceiveMessage _ _ _ => false
  end.

Definition is_run (ev : Event) : bool :=
  match ev with SubprocessRun _ _ _ => true | _ => false end.
Definition is_start (ev : Event) : bool :=
  match ev with ExtenderStart _ => true | _ => false end.
Definition is_stop (ev : Event) : bool :=
  match ev with ExtenderStop _ => true | _ => false end.
Definition is_delete (ev : Event) : bool :=
  match ev with DeleteMessage _ _ => true | _ => false end.

(** How many calls of a trace satisfy [p]. *)
Definition count (p : Event → bool) (tr : list Event) : nat :=
  length (List.filter p tr).

(** The lease extender of a trace was started at most once, and if it was
    started, stopping it is the last thing the trace does. *)
Definition extender_closed (rh : string) (tr : list Event) : bool :=
  match count is_start tr with
  | O => Nat.eqb (count is_stop tr) O
  | S O => Nat.eqb (count is_stop tr) (S O)
           && match last tr with
              | Some (ExtenderStop h) => bool_decide (h = rh)
              | _ => false
              end
  | _ => false
  end.

(** The discipline of one delivery. *)
Definition disciplined (job_id rh inputKey : string) (tr : list Event) : bool :=
  forallb (event_ok job_id rh inputKey) tr
  && Nat.leb (count is_run tr) (S O)
  && Nat.leb (count is_delete tr) (S O)
  && extender_closed rh tr.

(** No batch the queue is going to hand out holds a message. *)
Definition idle (w : World) : bool :=
  forallb (λ batch, bool_decide (batch = [])) (receive_batches w).

(** ** Concrete environments, messages and records *)

Module Scenario.

(** [int] on plain decimal digits, which is all the defaults need. *)
Definition digit (c : ascii) : option Z :=
  let n := nat_of_ascii c in
  if ((48 <=? n) && (n <=? 57))%nat then Some (Z.of_nat (n - 48)) else None.

Fixpoint digits (s : string) (acc : Z) : option Z :=
  match s with
  | EmptyString => Some acc
  | String c s' =>
      match digit c with
      | Some v => digits s' (10 * acc + v)
      | None => None
      end
  end.

Definition dec_int (s : string) : option Z :=
  if bool_decide (s = "") then None else digits s 0.

(** The text of a JSON object with string fields. *)
Definition dq : string := String (ascii_of_nat 34%nat) EmptyString.
Definition quoted (s : string) : string := dq +:+ s +:+ dq.
Definition render (fields : list (string * string)) : string :=
  "{" +:+ Py.join ", " (map (λ kv, quoted kv.1 +:+ ": " +:+ quoted kv.2) fields) +:+ "}".

Definition job1 : list (string * string) :=
  [("jobId", "J1"); ("inputKey", "input/a.mp4"); ("preset", "mp4-480p"); ("userId", "u1")].
Definition job2 : list (string * string) :=
  [("jobId", "J2"); ("inputKey", "input/b.mp4"); ("preset", "mp4-720p"); ("userId", "u1")].
(** A body that is valid JSON but names no job. *)
Definition no_job : list (string * string) :=
  [("inputKey", "input/c.mp4"); ("preset", "mp4-720p")].

(** [json.loads] on the bodies above; any other text fails to parse. *)
Definition loads (body : string) : option Py.json :=
  (λ f, Py.JDict (list_to_map f))
    <$> find (λ f, bool_decide (render f = body)) [job1; job2; no_job].

(** The record [POST /transcode] stores for a new job. *)
Definition pending (fields : list (string * string)) (created : string) : Item :=
  <["status" := "PENDING"]> (<["createdAt" := created]> (list_to_map fields)).

(** A world with the given table and scripts where nothing fails unless
    the scripts say so. *)
Definition world (table : gmap string Item) (times : list string) : World :=
  mkWorld table times "/tmp/tmpa1b2" [] [] [] [] [] [] [].

Definition store1 : gmap string Item :=
  {[ "J1" := pending job1 "2025-01-01T00:00:00Z" ]}.

Definition network_down : Exn := OtherException "Could not connect to the endpoint URL".

Definition delivery (fields : list (string * string)) (rh : string) : SqsMessage :=
  mkMsg (render fields) rh.

(** A finished job next to the pending one. *)
Definition done0 : Item :=
  <["outputKey" := "output/J0.mp4"]>
    (<["status" := "DONE"]> (list_to_map [("jobId", "J0"); ("inputKey", "input/z.mp4")])).
Definition store2 : gmap string Item := <["J0" := done0]> store1.

(** J1 is delivered, the encoder exits with 1; the message comes back
    under a new receipt handle and the encoder exits with 0. *)
Definition retry : World :=
  mkWorld store2 [] "/tmp/tmpa1b2" [] [] [] [(1%Z, "boom"); (0%Z, "")] [] []
    [[delivery job1 "rh-1"]; [delivery job1 "rh-2"]].

(** J1 then J2 are delivered; the download of J1's input fails. *)
Definition download_fails : World :=
  mkWorld store1 [] "/tmp/tmpa1b2" [] [] [Some network_down] [] [] []
    [[delivery job1 "rh-1"]; [delivery job2 "rh-2"]].

(** J1 is processed to the end, but deleting its message fails. *)
Definition delete_fails : World :=
  mkWorld store1 [] "/tmp/tmpa1b2" [] [] [] [] [] [Some network_down] [].

End Scenario.

(** ** Further environments *)

Module Cases.

(** A body that is not JSON, followed by J1. *)
Definition poison : World :=
  mkWorld Scenario.store1 [] "/tmp/tmpa1b2" [] [] [] [] [] []
    [[mkMsg "not json" "rh-0"]; [Scenario.delivery Scenario.job1 "rh-1"]].

(** Three polls that find the queue empty. *)
Definition quiet : World :=
  mkWorld Scenario.store1 [] "/tmp/tmpa1b2" [] [] [] [] [] [] [[]; []; []].

(** The encoder exits with 1 and the text "boom". *)
Definition encoder_fails : World :=
  mkWorld Scenario.store1 ["t1"; "t2"; "t3"; "t4"] "/tmp/tmpa1b2"
    [] [] [] [(1%Z, "boom")] [] [] [].


(** The table throttles the next update. *)
Definition throttled : World :=
  mkWorld Scenario.store1 ["t1"] "/tmp/tmpa1b2"
    [] [Some (ClientError "ProvisionedThroughputExceededException" "throttled")]
    [] [] [] [] [].

(** A job owned by u1 that is DONE. *)
Definition finished : Item :=
  <["userId" := "u1"]> (<["jobId" := "J0"]> Scenario.done0).

Definition token (sub role : string) : string := "token:" +:+ sub +:+ ":" +:+ role.
Definition presign (key : string) : string := "https://bucket/" +:+ key +:+ "?sig".

End Cases.

(** * Properties *)

(** ** The placeholder plumbing of the SET update *)

Section Placeholders.

Lemma dict_get_imap (f : Py.dict) (key : nat → string)
    (val : string * string → string) i kv :
  Inj (=) (=) key →
  f !! i = Some kv →
  Py.dict_get (imap (λ i kv, (key i, val kv)) f) (key i) = Some (val kv).
Proof.
  revert key i. induction f as [|x f IH]; intros key i Hinj Hi; [done|].
  cbn [imap Py.dict_get]. destruct i as [|i]; simpl in Hi.
  - injection Hi as ->. by rewrite String.eqb_refl.
  - destruct (String.eqb_spec (key 0) (key (S i))) as [Heq|_].
    + by apply Hinj in Heq.
    + apply (IH (key ∘ S) i); [|done].
      intros a b Hab. apply Hinj in Hab. by injection Hab.
Qed.

Lemma placeholder_inj (pfx : string) : Inj (=) (=) (λ i : nat, pfx +:+ pretty (S i)).
Proof.
  intros a b Hab. apply (inj (String.app pfx)) in Hab.
  apply (inj pretty) in Hab. by injection Hab.
Qed.

(** The clauses [_update_job] sends denote exactly its fields. *)
Lemma resolve_set_fields (fields : Py.dict) :
  Aws.resolve_set (Worker.names_of fields) (Worker.vals_of fields)
    (Worker.expr_of (Worker.names_of fields) (Worker.vals_of fields))
  = Some fields.
Proof.
  apply mapM_Some, Forall2_same_length_lookup. split.
  - unfold Worker.expr_of, Worker.names_of, Worker.vals_of.
    rewrite length_zip, !length_map, !length_imap. lia.
  - intros i cl kv Hcl Hkv.
    unfold Worker.expr_of in Hcl. apply lookup_zip_with_Some in Hcl
      as (nk & vk & -> & Hnk & Hvk).
    unfold Worker.names_of in Hnk. unfold Worker.vals_of in Hvk.
    rewrite list_lookup_fmap, list_lookup_imap, Hkv in Hnk, Hvk.
    simpl in Hnk, Hvk. injection Hnk as <-. injection Hvk as <-.
    unfold Aws.resolve_clause. cbn [fst snd].
    unfold Worker.names_of, Worker.vals_of.
    rewrite (dict_get_imap fields (λ i, "#k" +:+ pretty (S i)) fst i kv
               (placeholder_inj "#k") Hkv).
    rewrite (dict_get_imap fields (λ i, ":v" +:+ pretty (S i)) snd i kv
               (placeholder_inj ":v") Hkv).
    by destruct kv.
Qed.

End Placeholders.

(** ** One call of [_update_job] *)

Arguments Worker._update_job : simpl never.

(** [_update_job] stamps [updatedAt] and, unless the call itself fails,
    writes its fields over whatever record the key holds. *)
Lemma update_job_run job_id fields w :
  Worker._update_job job_id fields w =
    let sets := Py.dict_set fields "updatedAt" (reading w) in
    let w' := set_update_item_faults (tail (update_item_faults w)) (tick w) in
    match next_fault (update_item_faults w) with
    | Some e =>
        mkRun (res (Worker.ignore_conditional e w')) w'
              [UpdateItem job_id sets (Raise e)]
    | None =>
        let it := Aws.apply_set sets (default {[ "jobId" := job_id ]} (jobs w !! job_id)) in
        mkRun (Ok tt) (set_jobs (<[job_id := it]> (jobs w)) w')
              [UpdateItem job_id sets (Ok it)]
    end.
Proof.
  unfold Worker._update_job, Worker._now, Aws.strftime_now, mbind, M_bind, bind,
    try_except, Aws.update_item.
  fold (reading w). rewrite resolve_set_fields.
  cbn [update_item_faults set_clock jobs]. fold (tick w).
  destruct (next_fault (update_item_faults w)) as [e|]; cbn.
  - unfold Worker.ignore_conditional.
    destruct e; try reflexivity. case_bool_decide; reflexivity.
  - reflexivity.
Qed.

(** ** The idempotency guard *)

Ltac run_bind := unfold mbind, M_bind, bind, lift.

Lemma redundant_hit (it : Item) st :
  it !! "status" = Some st → st = "RUNNING" ∨ st = "DONE" →
  Worker.redundant (Some it) = true.
Proof.
  intros Hst Hor. unfold Worker.redundant. rewrite Hst.
  assert (it ≠ ∅) as Hne by (intros ->; by rewrite lookup_empty in Hst).
  rewrite (bool_decide_eq_false_2 _ Hne).
  destruct Hor as [-> | ->]; reflexivity.
Qed.

(** C4. A delivery for a job whose stored status is RUNNING or DONE when the
    guard reads it issues exactly two external calls, the read and the
    deletion of the message: the encoder is never run and the job table is
    neither written nor changed. *)
Theorem redundant_delivery_dropped (d : gmap string string) rh w job_id inputKey
    (it : Item) st :
  d !! "jobId" = Some job_id →
  d !! "inputKey" = Some inputKey →
  next_fault (get_item_faults w) = None →
  jobs w !! job_id = Some it →
  it !! "status" = Some st →
  st = "RUNNING" ∨ st = "DONE" →
  let r := Worker.process_message (Py.JDict d) rh w in
  emitted r = [GetItem job_id (Ok (Some it));
               DeleteMessage rh (next_fault (delete_faults w))]
  ∧ jobs (post r) = jobs w
  ∧ res r = match next_fault (delete_faults w) with
            | None => Ok tt
            | Some e => Raise e
            end.
Proof.
  intros Hj Hi Hget Hjob Hst Hor r. subst r.
  unfold Worker.process_message. run_bind.
  cbn [Py.getitem Py.get]. rewrite Hj, Hi. cbn [res post emitted].
  unfold Worker._get_job, Aws.get_item. rewrite Hget, Hjob.
  cbn [res post emitted]. rewrite (redundant_hit it st Hst Hor).
  unfold Worker._delete_msg, Aws.delete_message. cbn [delete_faults set_get_item_faults].
  destruct (next_fault (delete_faults w)); cbn; auto.
Qed.

(** ** Bodies without a job id or an input key *)

Lemma process_message_key_error (d : gmap string string) rh w :
  d !! "jobId" = None ∨ d !! "inputKey" = None →
  Worker.process_message (Py.JDict d) rh w
  = mkRun (Raise (KeyError (first_missing d))) w [].
Proof.
  intros Hmiss. unfold Worker.process_message, first_missing. run_bind.
  cbn [Py.getitem].
  destruct (d !! "jobId") as [j|] eqn:Hj; [|done].
  destruct Hmiss as [?|Hi]; [done|]. by rewrite Hi.
Qed.

(** C10. A body that parses to a JSON object without [jobId] or [inputKey]
    makes [process_message] raise [KeyError] with the world untouched and no
    external call issued; the loop does not catch it: the round that
    received the message ends the process, after the receive alone, with no
    deletion and no write, whatever was still to come. *)
Theorem missing_field_halts_consumer json_loads vis (d : gmap string string)
    m rest batches n w :
  receive_batches w = (m :: rest) :: batches →
  json_loads (Body m) = Some (Py.JDict d) →
  d !! "jobId" = None ∨ d !! "inputKey" = None →
  (∀ w', Worker.process_message (Py.JDict d) (ReceiptHandle m) w'
         = mkRun (Raise (KeyError (first_missing d))) w' [])
  ∧ Worker.poll_loop json_loads vis (S n) w
    = mkRun (Raise (KeyError (first_missing d))) (set_receive_batches batches w)
        [ReceiveMessage Worker.WAIT_TIME_SECONDS vis (m :: rest)].
Proof.
  intros Hrecv Hload Hmiss. split.
  - intros w'. by apply process_message_key_error.
  - cbn [Worker.poll_loop]. run_bind. unfold Aws.receive_message.
    rewrite Hrecv. cbn. rewrite Hload. run_bind.
    by rewrite process_message_key_error.
Qed.

Lemma missing_field_halts_consumer_witness :
  let w := set_receive_batches
             [[mkMsg (Scenario.render Scenario.no_job) "rh-1"];
              [mkMsg (Scenario.render Scenario.job1) "rh-2"]]
             (Scenario.world Scenario.store1 []) in
  Worker.poll_loop Scenario.loads 1800 2 w
  = mkRun (Raise (KeyError "jobId"))
      (set_receive_batches [[mkMsg (Scenario.render Scenario.job1) "rh-2"]]
         (Scenario.world Scenario.store1 []))
      [ReceiveMessage 20 1800 [mkMsg (Scenario.render Scenario.no_job) "rh-1"]].
Proof.
  exact (proj2 (missing_field_halts_consumer Scenario.loads 1800
           (list_to_map Scenario.no_job)
           (mkMsg (Scenario.render Scenario.no_job) "rh-1") []
           [[mkMsg (Scenario.render Scenario.job1) "rh-2"]] 1
           (set_receive_batches
             [[mkMsg (Scenario.render Scenario.no_job) "rh-1"];
              [mkMsg (Scenario.render Scenario.job1) "rh-2"]]
             (Scenario.world Scenario.store1 []))
           eq_refl eq_refl (or_introl eq_refl))).
Defined.

Lemma redundant_delivery_dropped_witness :
  let done_job : Item := <["status" := "DONE"]> (Scenario.pending Scenario.job1 "t0") in
  let w := Scenario.world {[ "J1" := done_job ]} [] in
  let r := Worker.process_message (Py.JDict (list_to_map Scenario.job1)) "rh-7" w in
  emitted r = [GetItem "J1" (Ok (Some done_job)); DeleteMessage "rh-7" None]
  ∧ jobs (post r) = jobs w
  ∧ res r = Ok tt.
Proof.
  apply (redundant_delivery_dropped (list_to_map Scenario.job1) "rh-7"
           (Scenario.world {[ "J1" := <["status" := "DONE"]>
                                        (Scenario.pending Scenario.job1 "t0") ]} [])
           "J1" "input/a.mp4"
           (<["status" := "DONE"]> (Scenario.pending Scenario.job1 "t0")) "DONE");
    first [reflexivity | right; reflexivity].
Defined.

(** ** Preset resolution *)

(** C8. Resolution is a function of the preset name alone; "mp4-720p"
    resolves to 1280x720 at CRF 23, and every name outside the preset map,
    "unknown-preset" among them, resolves to the same parameters. *)
Theorem preset_fallback :
  Transcode.resolve "mp4-720p" = Ok (Transcode.mkSpec 1280 720 23)
  ∧ Transcode.resolve "unknown-preset" = Transcode.resolve "mp4-720p"
  ∧ ∀ name, Transcode.PRESET_SPECS !! name = None →
            Transcode.resolve name = Transcode.resolve "mp4-720p".
Proof.
  split; [reflexivity|]. split; [reflexivity|].
  intros name Hname. unfold Transcode.resolve. rewrite Hname. reflexivity.
Qed.

Lemma preset_fallback_witness :
  Transcode.PRESET_SPECS !! "unknown-preset" = None
  ∧ Transcode.resolve "unknown-preset" = Transcode.resolve "mp4-720p".
Proof.
  split; [reflexivity|].
  apply (proj2 (proj2 preset_fallback) "unknown-preset"). reflexivity.
Defined.

(** The message's preset, absent or not, only reaches the encoder through
    [resolve]: the command line is the one of the resolved parameters. *)
Lemma run_ffmpeg_uses_resolve in_path out_path preset intensity spec w :
  Transcode.resolve preset = Ok spec →
  ∃ rest, emitted (Transcode.run_ffmpeg in_path out_path preset intensity w)
          = [SubprocessRun (Transcode.command in_path out_path spec intensity)
               rest.1 rest.2].
Proof.
  intros Hspec. unfold Transcode.run_ffmpeg. run_bind. rewrite Hspec.
  cbn [res post emitted]. unfold Aws.subprocess_run. cbn [res post emitted].
  exists (default (0%Z, "") (head (encoder_exits w))).
  case_bool_decide; reflexivity.
Qed.

(** ** Start-up validation *)

Lemma missing_spec (cfg : Config.Settings) :
  Config.missing cfg
  = ((if Py.truthy (Config.S3_BUCKET cfg) then [] else ["S3_BUCKET"])
     ++ (if Py.truthy (Config.SQS_URL cfg) then [] else ["SQS_URL"])
     ++ (if bool_decide (Config.DDB_JOBS_TABLE cfg = "") then ["DDB_JOBS_TABLE"] else []))%list.
Proof.
  unfold Config.missing. rewrite !filter_cons, filter_nil. cbn [snd Py.truthy].
  destruct (Py.truthy (Config.S3_BUCKET cfg)), (Py.truthy (Config.SQS_URL cfg)),
    (bool_decide (Config.DDB_JOBS_TABLE cfg = "")); reflexivity.
Qed.

Lemma assert_core_env_ok (cfg : Config.Settings) :
  Config.assert_core_env cfg = Ok tt
  ↔ Py.truthy (Config.S3_BUCKET cfg) = true
    ∧ Py.truthy (Config.SQS_URL cfg) = true
    ∧ Config.DDB_JOBS_TABLE cfg ≠ "".
Proof.
  unfold Config.assert_core_env. rewrite missing_spec.
  destruct (Py.truthy (Config.S3_BUCKET cfg)), (Py.truthy (Config.SQS_URL cfg));
    case_bool_decide; cbn; intuition (congruence || discriminate).
Qed.

Lemma truthy_false v : Py.truthy v = false ↔ v = None ∨ v = Some "".
Proof.
  destruct v as [s|]; cbn; [|split; auto].
  case_bool_decide as Hs; cbn.
  - subst s. split; auto.
  - split; [discriminate|]. intros [H|H]; congruence.
Qed.

(** C9 (amended). For every environment whose numeric settings, where set,
    are numbers: the module loads, taking the bucket, the queue URL, the
    table name (default "a3_jobs") and the lease ceiling (default 1800)
    from the environment; start-up then fails, with the RuntimeError of
    [assert_core_env] and before any call, exactly when the queue URL or
    the bucket is absent or empty or the table name is set to the empty
    string; in every other case the worker starts, and its first poll waits
    the constant 20 with the configured ceiling. *)
Theorem startup_validation py_int (environ : gmap string string) :
  py_int "1800" = Some 1800%Z →
  is_Some (py_int (default "900" (environ !! "PRESIGN_EXP_SECS"))) →
  is_Some (py_int (default "1800" (environ !! "MAX_VIS_TIMEOUT"))) →
  let fatal :=
    (environ !! "SQS_URL" = None ∨ environ !! "SQS_URL" = Some "")
    ∨ (environ !! "S3_BUCKET" = None ∨ environ !! "S3_BUCKET" = Some "")
    ∨ environ !! "DDB_JOBS_TABLE" = Some "" in
  ∃ cfg,
    Config.load py_int environ = Ok cfg
    ∧ Config.SQS_URL cfg = environ !! "SQS_URL"
    ∧ Config.S3_BUCKET cfg = environ !! "S3_BUCKET"
    ∧ Config.DDB_JOBS_TABLE cfg = default "a3_jobs" (environ !! "DDB_JOBS_TABLE")
    ∧ py_int (default "1800" (environ !! "MAX_VIS_TIMEOUT"))
      = Some (Config.MAX_VIS_TIMEOUT cfg)
    ∧ (environ !! "MAX_VIS_TIMEOUT" = None → Config.MAX_VIS_TIMEOUT cfg = 1800%Z)
    ∧ (fatal →
       ∃ names,
         Config.startup py_int environ
         = Raise (RuntimeError ("Missing required env vars: " +:+ names))
         ∧ ∀ json_loads n w,
             Worker.main py_int json_loads environ n w
             = mkRun (Raise (RuntimeError ("Missing required env vars: " +:+ names)))
                 w [])
    ∧ (¬ fatal →
       Config.startup py_int environ = Ok cfg
       ∧ ∀ json_loads n w, ∃ msgs later,
           emitted (Worker.main py_int json_loads environ (S n) w)
           = ReceiveMessage 20 (Config.MAX_VIS_TIMEOUT cfg) msgs :: later).
Proof.
  intros H1800 [presign Hp] [vis Hv] fatal.
  assert (Config.load py_int environ
          = Ok (Config.mkSettings
                  (default "ap-southeast-2" (environ !! "AWS_REGION"))
                  (environ !! "S3_BUCKET") (environ !! "SQS_URL") (environ !! "DLQ_URL")
                  (default "a3_jobs" (environ !! "DDB_JOBS_TABLE"))
                  (default "dev-secret-change-me" (environ !! "JWT_SECRET"))
                  "HS256" presign vis)) as Hload.
  { unfold Config.load, Config.int_of. by rewrite Hp, Hv. }
  eexists. split; [exact Hload|].
  cbn [Config.SQS_URL Config.S3_BUCKET Config.DDB_JOBS_TABLE Config.MAX_VIS_TIMEOUT].
  do 4 (split; [done|]).
  split.
  { intros Habs. rewrite Habs in Hv. cbn in Hv. congruence. }
  assert (fatal ↔ Config.assert_core_env
                    (Config.mkSettings
                       (default "ap-southeast-2" (environ !! "AWS_REGION"))
                       (environ !! "S3_BUCKET") (environ !! "SQS_URL")
                       (environ !! "DLQ_URL")
                       (default "a3_jobs" (environ !! "DDB_JOBS_TABLE"))
                       (default "dev-secret-change-me" (environ !! "JWT_SECRET"))
                       "HS256" presign vis) ≠ Ok tt) as Hfatal.
  { rewrite assert_core_env_ok. cbn [Config.SQS_URL Config.S3_BUCKET Config.DDB_JOBS_TABLE].
    unfold fatal. rewrite <- !truthy_false.
    destruct (Py.truthy (environ !! "S3_BUCKET")), (Py.truthy (environ !! "SQS_URL")),
      (environ !! "DDB_JOBS_TABLE") as [t|]; cbn;
      try destruct (decide (t = "")) as [->|?]; split;
      intuition (congruence || discriminate). }
  split.
  - intros Hf. apply Hfatal in Hf.
    unfold Worker.main, Config.startup. run_bind. rewrite Hload.
    unfold Config.assert_core_env in *.
    destruct (Config.missing _) as [|m ms]; [done|].
    eexists. split; [reflexivity|]. intros; reflexivity.
  - intros Hnf.
    assert (Config.assert_core_env
              (Config.mkSettings
                 (default "ap-southeast-2" (environ !! "AWS_REGION"))
                 (environ !! "S3_BUCKET") (environ !! "SQS_URL")
                 (environ !! "DLQ_URL")
                 (default "a3_jobs" (environ !! "DDB_JOBS_TABLE"))
                 (default "dev-secret-change-me" (environ !! "JWT_SECRET"))
                 "HS256" presign vis) = Ok tt) as Hok.
    { destruct (Config.assert_core_env _) as [[]|e] eqn:Ha; [done|].
      exfalso. apply Hnf, Hfatal. done. }
    assert (Config.startup py_int environ
            = Ok (Config.mkSettings
                    (default "ap-southeast-2" (environ !! "AWS_REGION"))
                    (environ !! "S3_BUCKET") (environ !! "SQS_URL")
                    (environ !! "DLQ_URL")
                    (default "a3_jobs" (environ !! "DDB_JOBS_TABLE"))
                    (default "dev-secret-change-me" (environ !! "JWT_SECRET"))
                    "HS256" presign vis)) as Hstart.
    { unfold Config.startup. by rewrite Hload, Hok. }
    split; [exact Hstart|]. intros json_loads n w.
    unfold Worker.main. run_bind. rewrite Hstart.
    cbn [Worker.poll_loop Config.MAX_VIS_TIMEOUT]. run_bind.
    unfold Aws.receive_message.
    destruct (Worker.for_msgs _ _ _) as [[[]|e] w1 ev1];
      [destruct (Worker.poll_loop _ _ _ _) as [r2 w2 ev2]|]; cbn; eauto.
Qed.

Lemma startup_validation_witness :
  let environ : gmap string string :=
    <["S3_BUCKET" := "a3-videos"]> (<["SQS_URL" := "https://sqs/q"]> ∅) in
  Scenario.dec_int "1800" = Some 1800%Z
  ∧ ∃ cfg, Config.startup Scenario.dec_int environ = Ok cfg
           ∧ Config.DDB_JOBS_TABLE cfg = "a3_jobs"
           ∧ Config.MAX_VIS_TIMEOUT cfg = 1800%Z.
Proof.
  intros environ. split; [reflexivity|].
  destruct (startup_validation Scenario.dec_int environ eq_refl
              (ex_intro _ 900%Z eq_refl) (ex_intro _ 1800%Z eq_refl))
    as (cfg & _ & _ & _ & Htable & _ & Hvis & _ & Hstart).
  exists cfg. split; [|split].
  - apply Hstart. intros [[H|H]|[[H|H]|H]]; vm_compute in H; discriminate H.
  - exact Htable.
  - apply Hvis. reflexivity.
Defined.

(** An environment with the bucket and the queue URL, and neither the
    table name nor the lease ceiling (nor any poll wait): start-up passes. *)
Lemma absent_table_and_ceiling_not_fatal :
  ¬ (∀ environ : gmap string string,
       environ !! "SQS_URL" = None ∨ environ !! "S3_BUCKET" = None
       ∨ environ !! "DDB_JOBS_TABLE" = None ∨ environ !! "MAX_VIS_TIMEOUT" = None →
       ∃ e, Config.startup Scenario.dec_int environ = Raise e).
Proof.
  intros Hall.
  destruct (Hall (<["S3_BUCKET" := "a3-videos"]> (<["SQS_URL" := "https://sqs/q"]> ∅)))
    as [e He]; [right; right; left; reflexivity|].
  vm_compute in He. discriminate He.
Qed.

(** ** One run of the encoder *)

Arguments Transcode.run_ffmpeg : simpl never.
Arguments Transcode.command : simpl never.
Arguments Transcode.failure_text : simpl never.
Arguments Py.str_exn : simpl never.

Lemma resolve_ok preset : Transcode.resolve preset = Ok (resolved preset).
Proof. reflexivity. Qed.

Lemma run_ffmpeg_run in_path out_path preset intensity w :
  Transcode.run_ffmpeg in_path out_path preset intensity w =
    let cmd := Transcode.command in_path out_path (resolved preset) intensity in
    let proc := next_exit w in
    mkRun (if bool_decide (proc.1 ≠ 0%Z)
           then Raise (RuntimeError (Transcode.failure_text proc.1 cmd proc.2))
           else Ok out_path)
          (set_encoder_exits (tail (encoder_exits w)) w)
          [SubprocessRun cmd proc.1 proc.2].
Proof.
  unfold Transcode.run_ffmpeg. run_bind. rewrite resolve_ok.
  unfold Aws.subprocess_run. fold (next_exit w). cbn.
  case_bool_decide; reflexivity.
Qed.



(** ** What a computation leaves alone *)

Section Keeps.

Context (R : relation World) `{!PreOrder R}.

Lemma keeps_ret {A} (a : A) : keeps R (mret a).
Proof. intros w. reflexivity. Qed.

Lemma keeps_raise {A} e : keeps R (@raise A e).
Proof. intros w. reflexivity. Qed.

Lemma keeps_lift {A} (r : Result A) : keeps R (lift r).
Proof. intros w. reflexivity. Qed.

Lemma keeps_bind {A B} (m : M A) (f : A → M B) :
  keeps R m → (∀ a, keeps R (f a)) → keeps R (m ≫= f).
Proof.
  intros Hm Hf w. specialize (Hm w). unfold mbind, M_bind, bind.
  destruct (m w) as [[a|e] w1 ev1]; cbn in *; [|done].
  specialize (Hf a w1). destruct (f a w1) as [r w2 ev2]; cbn in *.
  by transitivity w1.
Qed.

Lemma keeps_try_except {A} (m : M A) (h : Exn → M A) :
  keeps R m → (∀ e, keeps R (h e)) → keeps R (try_except m h).
Proof.
  intros Hm Hh w. specialize (Hm w). unfold try_except.
  destruct (m w) as [[a|e] w1 ev1]; cbn in *; [done|].
  specialize (Hh e w1). destruct (h e w1) as [r w2 ev2]; cbn in *.
  by transitivity w1.
Qed.

Lemma keeps_try_finally {A} (m : M A) (c : M unit) :
  keeps R m → keeps R c → keeps R (try_finally m c).
Proof.
  intros Hm Hc w. specialize (Hm w). unfold try_finally.
  destruct (m w) as [r w1 ev1]; cbn in *.
  specialize (Hc w1). destruct (c w1) as [[[]|e] w2 ev2]; cbn in *;
    by transitivity w1.
Qed.

End Keeps.

Global Instance same_jobs_preorder : PreOrder same_jobs.
Proof.
  split; [by intros w|]. intros w1 w2 w3 H12 H23. unfold same_jobs in *. congruence.
Qed.

Global Instance same_except_preorder j : PreOrder (same_except j).
Proof.
  split; [by intros w j'|]. intros w1 w2 w3 H12 H23 j' Hne.
  by rewrite (H23 j' Hne), (H12 j' Hne).
Qed.

Global Instance stays_calm_preorder : PreOrder stays_calm.
Proof.
  split; [intros w Hc; exact Hc|]. intros w1 w2 w3 H12 H23 Hc.
  apply H23, H12, Hc.
Qed.

Lemma same_jobs_except j w w' : same_jobs w w' → same_except j w w'.
Proof. intros H j' _. by rewrite H. Qed.

Lemma forallb_tail {A} (p : A → bool) l : forallb p l = true → forallb p (tail l) = true.
Proof. destruct l; cbn; [done|]. by intros [_ ?]%andb_prop. Qed.

Create HintDb keeps discriminated.

(** Every call of the boundary but [update_item] leaves the job table as it
    is, and every call leaves a calm environment calm. *)
Lemma get_item_jobs j : keeps same_jobs (Aws.get_item j).
Proof. intros w. unfold Aws.get_item. cbn. by destruct (next_fault _). Qed.
Lemma get_item_calm j : keeps stays_calm (Aws.get_item j).
Proof. intros w Hc. unfold Aws.get_item. destruct (next_fault _); exact Hc. Qed.

Lemma download_jobs k dst : keeps same_jobs (Worker._download_from_s3 k dst).
Proof. intros w. unfold Worker._download_from_s3, Aws.download_file. cbn. by destruct (next_fault _). Qed.
Lemma download_calm k dst : keeps stays_calm (Worker._download_from_s3 k dst).
Proof.
  intros w Hc. unfold Worker._download_from_s3, Aws.download_file. cbn.
  destruct (next_fault _); exact Hc.
Qed.

Lemma upload_jobs src k : keeps same_jobs (Worker._upload_to_s3 src k).
Proof. intros w. unfold Worker._upload_to_s3, Aws.upload_file. cbn. by destruct (next_fault _). Qed.
Lemma upload_calm src k : keeps stays_calm (Worker._upload_to_s3 src k).
Proof.
  intros w Hc. unfold Worker._upload_to_s3, Aws.upload_file. cbn.
  destruct (next_fault _); exact Hc.
Qed.

Lemma delete_jobs rh : keeps same_jobs (Worker._delete_msg rh).
Proof. intros w. unfold Worker._delete_msg, Aws.delete_message. cbn. by destruct (next_fault _). Qed.
Lemma delete_calm rh : keeps stays_calm (Worker._delete_msg rh).
Proof.
  intros w Hc. unfold Worker._delete_msg, Aws.delete_message.
  apply andb_prop in Hc as [Hd Hu].
  destruct (next_fault _); cbn; unfold calm; cbn;
    by rewrite (forallb_tail _ _ Hd), Hu.
Qed.

Lemma receive_jobs ws vis : keeps same_jobs (Aws.receive_message ws vis).
Proof. by intros w. Qed.
Lemma receive_calm ws vis : keeps stays_calm (Aws.receive_message ws vis).
Proof. intros w Hc. exact Hc. Qed.

Lemma now_jobs : keeps same_jobs Worker._now.
Proof. by intros w. Qed.
Lemma now_calm : keeps stays_calm Worker._now.
Proof. intros w Hc. exact Hc. Qed.

Lemma tmpdir_jobs : keeps same_jobs Aws.temporary_directory.
Proof. by intros w. Qed.
Lemma tmpdir_calm : keeps stays_calm Aws.temporary_directory.
Proof. intros w Hc. exact Hc. Qed.

Lemma extender_start_jobs rh : keeps same_jobs (Worker.extender_start rh).
Proof. by intros w. Qed.
Lemma extender_start_calm rh : keeps stays_calm (Worker.extender_start rh).
Proof. intros w Hc. exact Hc. Qed.
Lemma extender_stop_jobs rh : keeps same_jobs (Worker.extender_stop rh).
Proof. by intros w. Qed.
Lemma extender_stop_calm rh : keeps stays_calm (Worker.extender_stop rh).
Proof. intros w Hc. exact Hc. Qed.

Lemma run_ffmpeg_jobs i o p l : keeps same_jobs (Transcode.run_ffmpeg i o p l).
Proof. intros w. by rewrite run_ffmpeg_run. Qed.
Lemma run_ffmpeg_calm i o p l : keeps stays_calm (Transcode.run_ffmpeg i o p l).
Proof. intros w Hc. rewrite run_ffmpeg_run. exact Hc. Qed.

(** [_update_job] touches the record of its own job only. *)
Lemma update_job_except j fields : keeps (same_except j) (Worker._update_job j fields).
Proof.
  intros w j' Hne. rewrite update_job_run. cbn zeta.
  destruct (next_fault _); cbn; [done|]. by rewrite lookup_insert_ne.
Qed.
Lemma update_job_calm j fields : keeps stays_calm (Worker._update_job j fields).
Proof.
  intros w Hc. rewrite update_job_run. cbn zeta.
  apply andb_prop in Hc as [Hd Hu].
  destruct (next_fault _); cbn; unfold calm; cbn;
    by rewrite Hd, (forallb_tail _ _ Hu).
Qed.

Lemma keeps_weaken {A} (R R' : relation World) (m : M A) :
  (∀ w w', R w w' → R' w w') → keeps R m → keeps R' m.
Proof. intros Himp Hm w. apply Himp, Hm. Qed.

Global Instance done_kept_preorder : PreOrder done_kept.
Proof.
  split; [by intros w j it|]. intros w1 w2 w3 H12 H23 j it Hj Hd. eauto.
Qed.

Lemma same_jobs_done_kept w w' : same_jobs w w' → done_kept w w'.
Proof. intros H j it Hj _. by rewrite H. Qed.

Ltac keeps_prim :=
  first [ apply get_item_calm | apply download_calm | apply upload_calm
        | apply delete_calm | apply receive_calm | apply now_calm
        | apply tmpdir_calm | apply extender_start_calm | apply extender_stop_calm
        | apply run_ffmpeg_calm | apply update_job_calm
        | apply update_job_except
        | apply get_item_jobs | apply download_jobs | apply upload_jobs
        | apply delete_jobs | apply receive_jobs | apply now_jobs
        | apply tmpdir_jobs | apply extender_start_jobs | apply extender_stop_jobs
        | apply run_ffmpeg_jobs ].

Ltac keeps_tac :=
  repeat lazymatch goal with
    | |- PreOrder _ => apply _
    | |- ∀ _, _ => intro
    | |- keeps _ (mbind _ _) => apply keeps_bind
    | |- keeps _ (mret _) => apply keeps_ret
    | |- keeps _ (ret _) => apply keeps_ret
    | |- keeps _ (raise _) => apply keeps_raise
    | |- keeps _ (lift _) => apply keeps_lift
    | |- keeps _ (try_finally _ _) => apply keeps_try_finally
    | |- keeps _ (try_except _ _) => apply keeps_try_except
    | |- keeps _ (let _ := _ in _) => cbn zeta
    | |- keeps _ _ =>
        first [ keeps_prim
              | (eapply keeps_weaken; [apply same_jobs_except|keeps_prim])
              | (eapply keeps_weaken; [apply same_jobs_done_kept|keeps_prim]) ]
    end.

(** ** What one delivery may touch *)

Lemma after_guard_except j ik p rh : keeps (same_except j) (Worker.after_guard j ik p rh).
Proof. unfold Worker.after_guard. keeps_tac. Qed.

Lemma after_guard_calm j ik p rh : keeps stays_calm (Worker.after_guard j ik p rh).
Proof. unfold Worker.after_guard. keeps_tac. Qed.

Lemma process_message_calm body rh : keeps stays_calm (Worker.process_message body rh).
Proof.
  unfold Worker.process_message, Worker._get_job. keeps_tac.
  match goal with |- context [Worker.redundant ?x] => destruct (Worker.redundant x) end;
    [keeps_tac | apply after_guard_calm].
Qed.

Lemma redundant_done (it : Item) :
  it !! "status" = Some "DONE" → Worker.redundant (Some it) = true.
Proof. intros H. apply (redundant_hit it "DONE"); auto. Qed.

(** A record that is DONE when a delivery arrives is left as it is. *)
Lemma process_message_done_kept body rh : keeps done_kept (Worker.process_message body rh).
Proof.
  unfold Worker.process_message. intros w.
  unfold mbind, M_bind, bind, lift.
  destruct (Py.getitem body "jobId") as [j|e]; [|reflexivity].
  destruct (Py.getitem body "inputKey") as [ik|e]; [|reflexivity].
  destruct (Py.get body "preset" "mp4-720p") as [p|e]; [|reflexivity].
  unfold Worker._get_job, Aws.get_item.
  destruct (next_fault (get_item_faults w)) as [e|]; [by intros ? ?|].
  destruct (Worker.redundant (jobs w !! j)) eqn:Hred.
  - pose proof (delete_jobs rh (set_get_item_faults (tail (get_item_faults w)) w)) as Hd.
    destruct (Worker._delete_msg rh _) as [r w2 ev2]. cbn in *.
    intros j' it Hj' _. by rewrite Hd.
  - pose proof (after_guard_except j ik p rh
                  (set_get_item_faults (tail (get_item_faults w)) w)) as Hag.
    destruct (Worker.after_guard j ik p rh _) as [r w2 ev2]. cbn in *.
    intros j' it Hj' Hdone. destruct (decide (j' = j)) as [->|Hne].
    + rewrite Hj', (redundant_done it Hdone) in Hred. discriminate.
    + by rewrite (Hag j' Hne).
Qed.

Section Loop.

Variable json_loads : string → option Py.json.
Variable vis : Z.

Lemma for_msgs_calm msgs : keeps stays_calm (Worker.for_msgs json_loads msgs).
Proof.
  induction msgs as [|m rest IH]; cbn [Worker.for_msgs]; [keeps_tac|].
  destruct (json_loads (Body m));
    (apply keeps_bind; [apply _| |intros ?; exact IH]).
  - apply process_message_calm.
  - keeps_tac.
Qed.

Lemma for_msgs_done_kept msgs : keeps done_kept (Worker.for_msgs json_loads msgs).
Proof.
  induction msgs as [|m rest IH]; cbn [Worker.for_msgs]; [keeps_tac|].
  destruct (json_loads (Body m));
    (apply keeps_bind; [apply _| |intros ?; exact IH]).
  - apply process_message_done_kept.
  - keeps_tac.
Qed.

Lemma poll_loop_calm n : keeps stays_calm (Worker.poll_loop json_loads vis n).
Proof.
  induction n as [|n IH]; cbn [Worker.poll_loop]; [keeps_tac|].
  apply keeps_bind; [apply _|keeps_tac|]. intros msgs.
  apply keeps_bind; [apply _|apply for_msgs_calm|]. intros _. exact IH.
Qed.

Lemma poll_loop_done_kept n : keeps done_kept (Worker.poll_loop json_loads vis n).
Proof.
  induction n as [|n IH]; cbn [Worker.poll_loop]; [keeps_tac|].
  apply keeps_bind; [apply _|keeps_tac|]. intros msgs.
  apply keeps_bind; [apply _|apply for_msgs_done_kept|]. intros _. exact IH.
Qed.

End Loop.

(** ** Status changes *)

Lemma statuses_app j tr1 tr2 :
  statuses j (tr1 ++ tr2) = statuses j tr1 ++ statuses j tr2.
Proof. unfold statuses, writes. by rewrite omap_app, fmap_app. Qed.

Lemma last_status_cons a b l : last_status a (b :: l) = last_status b l.
Proof.
  unfold last_status. revert a b. induction l as [|c l IH]; intros a b; [done|].
  change (List.last (b :: c :: l) a) with (List.last (c :: l) a).
  by rewrite (IH a c), (IH b c).
Qed.

Lemma path_ok_app a l1 l2 :
  path_ok a (l1 ++ l2) = path_ok a l1 && path_ok (last_status a l1) l2.
Proof.
  revert a. induction l1 as [|b l1 IH]; intros a; [done|].
  cbn [app path_ok]. by rewrite IH, andb_assoc, last_status_cons.
Qed.

Lemma last_status_app a l1 l2 :
  last_status a (l1 ++ l2) = last_status (last_status a l1) l2.
Proof.
  revert a. induction l1 as [|b l1 IH]; intros a; [done|].
  cbn [app]. by rewrite !last_status_cons, IH.
Qed.

Lemma tracks_refl j w : tracks j w [] w.
Proof. by split. Qed.

Lemma tracks_app j w tr1 w1 tr2 w2 :
  tracks j w tr1 w1 → tracks j w1 tr2 w2 → tracks j w (tr1 ++ tr2) w2.
Proof.
  intros [Hp1 Hl1] [Hp2 Hl2]. split.
  - rewrite statuses_app, path_ok_app, Hp1, <- Hl1. exact Hp2.
  - rewrite statuses_app, last_status_app, <- Hl1. exact Hl2.
Qed.

(** Calls that write nothing and leave the table alone change no status. *)
Lemma tracks_quiet j w tr w' :
  statuses j tr = [] → jobs w' = jobs w → tracks j w tr w'.
Proof. intros Hs Hj. unfold tracks. by rewrite Hs, Hj. Qed.

Lemma ordered_bind {A B} j (m : M A) (f : A → M B) :
  ordered j m → keeps stays_calm m → (∀ a, ordered j (f a)) → ordered j (m ≫= f).
Proof.
  intros Hm Hk Hf w Hc. specialize (Hm w Hc). specialize (Hk w Hc).
  unfold mbind, M_bind, bind.
  destruct (m w) as [[a|e] w1 ev1]; cbn in *; [|done].
  specialize (Hf a w1 Hk). destruct (f a w1) as [r w2 ev2]; cbn in *.
  by eapply tracks_app.
Qed.

Lemma redundant_false job :
  Worker.redundant job = false →
  status_of job ≠ Some "RUNNING" ∧ status_of job ≠ Some "DONE".
Proof.
  destruct job as [it|]; [|done]. unfold Worker.redundant, status_of. cbn.
  destruct (it !! "status") as [s|] eqn:Hs; [|done].
  assert (it ≠ ∅) as Hne by (intros ->; by rewrite lookup_empty in Hs).
  rewrite (bool_decide_eq_false_2 _ Hne). cbn.
  intros [H1 H2]%orb_false_elim.
  apply bool_decide_eq_false in H1, H2. split; congruence.
Qed.

Lemma benign_raises e w :
  benign (Some e) = true → Worker.ignore_conditional e w = mkRun (Raise e) w [].
Proof.
  unfold benign, Worker.ignore_conditional. destruct e; try reflexivity.
  intros H%negb_true_iff. by rewrite H.
Qed.

Lemma forallb_next (p : option Exn → bool) l :
  p None = true → forallb p l = true → p (next_fault l) = true.
Proof. destruct l; cbn; [done|]. by intros _ [? _]%andb_prop. Qed.

Arguments next_exit : simpl never.

Lemma step_ok_start a :
  a ≠ Some "RUNNING" → a ≠ Some "DONE" → step_ok a (Some "RUNNING") = true.
Proof.
  intros Hr Hd. unfold step_ok.
  by rewrite (bool_decide_eq_false_2 _ Hr), (bool_decide_eq_false_2 _ Hd).
Qed.

Ltac norm_world :=
  unfold tick, reading, next_exit, set_jobs, set_clock, set_get_item_faults,
    set_update_item_faults, set_download_faults, set_encoder_exits,
    set_upload_faults, set_delete_faults, set_receive_batches;
  cbn [jobs clock tmpdir get_item_faults update_item_faults download_faults
       encoder_exits upload_faults delete_faults receive_batches].

Ltac solve_benign :=
  lazymatch goal with
  | Hn : next_fault ?l = Some ?e |- benign (Some ?e) = true =>
      rewrite <- Hn; apply forallb_next; [reflexivity|];
      repeat apply forallb_tail; assumption
  end.

Ltac norm_run :=
  norm_world; cbn [res post emitted app fst snd default from_option id];
  cbn beta iota zeta.

Ltac walk_step :=
  match goal with
  | |- context [Worker._update_job _ _ _] =>
      rewrite update_job_run; norm_run; rewrite ?lookup_insert_eq
  | |- context [Transcode.run_ffmpeg _ _ _ _ _] => rewrite run_ffmpeg_run
  | |- context [Worker.ignore_conditional _ _] =>
      rewrite benign_raises by solve_benign
  | H : next_fault ?l = _ |- context [next_fault ?l] => rewrite H
  | H : bool_decide ?P = _ |- context [bool_decide ?P] => rewrite H
  | |- context [bool_decide (?x ≠ 0%Z)] =>
      let H := fresh "Hrc" in destruct (bool_decide (x ≠ 0%Z)) eqn:H
  | |- context [match next_fault ?s with _ => _ end] =>
      let H := fresh "Hf" in destruct (next_fault s) eqn:H
  end.

Ltac walk := norm_run; repeat (walk_step; norm_run).

Lemma apply_set_lookup_notin sets (it : Item) k :
  Py.dict_get sets k = None → Aws.apply_set sets it !! k = it !! k.
Proof.
  unfold Aws.apply_set. revert it.
  induction sets as [|[k' v'] sets IH]; intros it Hnone; [done|].
  cbn in Hnone |- *. destruct (String.eqb_spec k' k) as [->|Hne]; [done|].
  rewrite (IH _ Hnone). by rewrite lookup_insert_ne.
Qed.

Lemma apply_set_lookup_head sets (it : Item) k v :
  Py.dict_get sets k = None → Aws.apply_set ((k, v) :: sets) it !! k = Some v.
Proof.
  intros Hnone. change (Aws.apply_set ((k, v) :: sets) it)
    with (Aws.apply_set sets (<[k := v]> it)).
  by rewrite (apply_set_lookup_notin _ _ _ Hnone), lookup_insert_eq.
Qed.

Ltac leaf j' j :=
  unfold tracks, statuses, writes, status_of; cbn;
  destruct (decide (j' = j)) as [->|?];
  [ rewrite ?bool_decide_eq_true_2 by done
  | rewrite ?bool_decide_eq_false_2 by done ];
  repeat first [ rewrite lookup_insert_eq
               | rewrite lookup_insert_ne by done
               | progress cbn ];
  rewrite ?step_ok_start by assumption;
  try (split; reflexivity).


(** Below the guard, in a calm environment, the status of every job moves
    by allowed changes only. *)
Lemma after_guard_ordered job_id ik p rh j w :
  calm w = true →
  status_of (jobs w !! job_id) ≠ Some "RUNNING" →
  status_of (jobs w !! job_id) ≠ Some "DONE" →
  let r := Worker.after_guard job_id ik p rh w in
  tracks j w (emitted r) (post r).
Proof.
  intros Hc Hr Hd r. subst r.
  destruct w as [jb ck td gf uf df ee upf delf rb].
  apply andb_prop in Hc as [Hdel Hupd]. cbn in Hdel, Hupd, Hr, Hd.
  assert (next_fault delf = None) as Hdel0.
  { pose proof (forallb_next (λ f, bool_decide (f = None)) delf eq_refl Hdel) as H.
    by apply bool_decide_eq_true in H. }
  unfold Worker.after_guard. run_bind. unfold try_finally, try_except.
  unfold Worker._now, Aws.strftime_now, Aws.temporary_directory,
    Worker._download_from_s3, Aws.download_file, Worker.extender_start,
    Worker.extender_stop, Worker._upload_to_s3, Aws.upload_file,
    Worker._delete_msg, Aws.delete_message.
  walk; leaf job_id j.
Qed.

Lemma process_message_ordered body rh j : ordered j (Worker.process_message body rh).
Proof.
  intros w Hc. unfold Worker.process_message. run_bind.
  destruct (Py.getitem body "jobId") as [job_id|e]; [|apply tracks_refl].
  destruct (Py.getitem body "inputKey") as [ik|e]; [|apply tracks_refl].
  destruct (Py.get body "preset" "mp4-720p") as [p|e]; [|apply tracks_refl].
  unfold Worker._get_job, Aws.get_item.
  destruct (next_fault (get_item_faults w)) as [e|]; [by apply tracks_quiet|].
  set (w1 := set_get_item_faults (tail (get_item_faults w)) w).
  destruct (Worker.redundant (jobs w !! job_id)) eqn:Hred.
  - unfold Worker._delete_msg, Aws.delete_message.
    destruct (next_fault (delete_faults w1)); by apply tracks_quiet.
  - apply redundant_false in Hred as [Hr Hd].
    pose proof (after_guard_ordered job_id ik p rh j w1 Hc Hr Hd) as Hag.
    cbn zeta in Hag. destruct (Worker.after_guard job_id ik p rh w1) as [r w2 ev2].
    cbn [emitted post] in *. exact Hag.
Qed.

Section LoopOrder.

Variable json_loads : string → option Py.json.
Variable vis : Z.

Lemma for_msgs_ordered msgs j : ordered j (Worker.for_msgs json_loads msgs).
Proof.
  induction msgs as [|m rest IH]; cbn [Worker.for_msgs].
  - intros w _. apply tracks_refl.
  - destruct (json_loads (Body m)); apply ordered_bind; try (intros _; exact IH).
    + apply process_message_ordered.
    + apply process_message_calm.
    + intros w _. unfold Worker._delete_msg, Aws.delete_message.
      destruct (next_fault _); by apply tracks_quiet.
    + apply delete_calm.
Qed.

Lemma poll_loop_ordered n j : ordered j (Worker.poll_loop json_loads vis n).
Proof.
  induction n as [|n IH]; cbn [Worker.poll_loop].
  - intros w _. apply tracks_refl.
  - apply ordered_bind.
    + intros w _. by apply tracks_quiet.
    + apply receive_calm.
    + intros msgs. apply ordered_bind; [apply for_msgs_ordered|apply for_msgs_calm|].
      intros _. exact IH.
Qed.

End LoopOrder.

Lemma step_from_done b : step_ok (Some "DONE") b = false.
Proof.
  unfold step_ok.
  rewrite (bool_decide_eq_true_2 (Some "DONE" = Some "DONE")) by done.
  rewrite (bool_decide_eq_false_2 (Some "DONE" = Some "RUNNING")) by done.
  cbn. by rewrite andb_false_r.
Qed.

Lemma path_done_final a l l1 l2 :
  path_ok a l = true → a :: l = l1 ++ Some "DONE" :: l2 → l2 = [].
Proof.
  revert a l. induction l1 as [|x l1 IH]; intros a l Hp Heq.
  - cbn in Heq. injection Heq as -> ->. destruct l2 as [|b l2]; [done|].
    cbn [path_ok] in Hp. by rewrite step_from_done in Hp.
  - cbn in Heq. injection Heq as -> ->.
    destruct l1 as [|y l1]; cbn in Hp |- *.
    + apply andb_prop in Hp as [_ Hp]. by apply (IH _ _ Hp).
    + apply andb_prop in Hp as [_ Hp]. by apply (IH _ _ Hp).
Qed.

(** C2 (amended). Over any rounds of the consumer loop in an environment
    where no deletion of a queue message fails, the stored statuses of every
    job follow one another by PENDING, FAILED or no record → RUNNING,
    RUNNING → DONE and RUNNING → FAILED only, and nothing is written to a job
    after DONE; and in every environment a record that is DONE when the
    rounds begin is the same record when they end. *)
Theorem status_changes_in_order json_loads vis n w j :
  let r := Worker.poll_loop json_loads vis n w in
  (calm w = true →
     path_ok (status_of (jobs w !! j)) (statuses j (emitted r)) = true
     ∧ ∀ l1 l2, status_history j w (emitted r) = l1 ++ Some "DONE" :: l2 → l2 = [])
  ∧ (∀ it : Item, jobs w !! j = Some it → it !! "status" = Some "DONE" →
                  jobs (post r) !! j = Some it).
Proof.
  intros r. split.
  - intros Hc. destruct (poll_loop_ordered json_loads vis n j w Hc) as [Hp _].
    split; [exact Hp|]. intros l1 l2 Heq. by eapply path_done_final.
  - intros it Hj Hd. by apply (poll_loop_done_kept json_loads vis n w).
Qed.

Lemma retry_history :
  status_history "J1" Scenario.retry
    (emitted (Worker.poll_loop Scenario.loads 1800 2 Scenario.retry))
  = [Some "PENDING"; Some "RUNNING"; Some "FAILED"; Some "RUNNING"; Some "DONE"].
Proof. vm_compute. reflexivity. Qed.

(** A failed job whose message is redelivered goes FAILED → RUNNING → DONE:
    its statuses are a prefix of neither sequence. *)
Lemma retry_leaves_the_prefixes :
  let history := status_history "J1" Scenario.retry
                   (emitted (Worker.poll_loop Scenario.loads 1800 2 Scenario.retry)) in
  ¬ (history `prefix_of` [Some "PENDING"; Some "RUNNING"; Some "DONE"]
     ∨ history `prefix_of` [Some "PENDING"; Some "RUNNING"; Some "FAILED"]).
Proof.
  intros history. unfold history. rewrite retry_history.
  intros [[k Hk]|[k Hk]]; discriminate Hk.
Qed.

Lemma status_changes_in_order_witness :
  let r := Worker.poll_loop Scenario.loads 1800 2 Scenario.retry in
  calm Scenario.retry = true
  ∧ path_ok (status_of (jobs Scenario.retry !! "J1")) (statuses "J1" (emitted r)) = true
  ∧ jobs (post r) !! "J0" = Some Scenario.done0.
Proof.
  split; [reflexivity|].
  destruct (status_changes_in_order Scenario.loads 1800 2 Scenario.retry "J1") as [H1 _].
  destruct (status_changes_in_order Scenario.loads 1800 2 Scenario.retry "J0") as [_ H0].
  split; [exact (proj1 (H1 eq_refl))|].
  apply H0; reflexivity.
Defined.

(** ** The success path *)

Ltac enter_process_message Hj Hi Hget Hred :=
  unfold Worker.process_message; run_bind; cbn [Py.getitem Py.get];
  rewrite Hj, Hi; unfold Worker._get_job, Aws.get_item; norm_run;
  rewrite Hget; norm_run; rewrite Hred;
  unfold Worker.after_guard; run_bind; unfold try_finally, try_except;
  unfold Worker._now, Aws.strftime_now, Aws.temporary_directory,
    Worker._download_from_s3, Aws.download_file, Worker.extender_start,
    Worker.extender_stop, Worker._upload_to_s3, Aws.upload_file,
    Worker._delete_msg, Aws.delete_message.

Ltac lookups :=
  cbn;
  repeat first [ rewrite lookup_insert_eq
               | rewrite lookup_insert_ne by done
               | progress cbn ];
  try reflexivity.

(** C5. When the encoder exits with 0, the calls that follow are, in this
    order and with nothing in between: the upload of the output file to
    output/<jobId>.mp4, the update that stores status DONE with that
    outputKey and finishedAt, and the deletion of the queue message; if the
    deletion succeeds only the lease extender's stop follows. *)
Theorem finalization_order (d : gmap string string) rh w job_id inputKey :
  d !! "jobId" = Some job_id →
  d !! "inputKey" = Some inputKey →
  next_fault (get_item_faults w) = None →
  Worker.redundant (jobs w !! job_id) = false →
  next_fault (update_item_faults w) = None →
  next_fault (download_faults w) = None →
  (next_exit w).1 = 0%Z →
  next_fault (upload_faults w) = None →
  next_fault (tail (update_item_faults w)) = None →
  let r := Worker.process_message (Py.JDict d) rh w in
  let key := "output/" +:+ job_id +:+ ".mp4" in
  let local_in := tmpdir w +:+ "/input.mp4" in
  let local_out := tmpdir w +:+ "/output.mp4" in
  ∃ (running done : Item) started stamped finished restamped cmd stderr rest,
    emitted r =
      [GetItem job_id (Ok (jobs w !! job_id));
       UpdateItem job_id
         [("status", "RUNNING"); ("startedAt", started); ("updatedAt", stamped)]
         (Ok running);
       DownloadFile inputKey local_in None;
       ExtenderStart rh;
       SubprocessRun cmd 0 stderr;
       UploadFile local_out key None;
       UpdateItem job_id
         [("status", "DONE"); ("outputKey", key); ("finishedAt", finished);
          ("updatedAt", restamped)]
         (Ok done);
       DeleteMessage rh (next_fault (delete_faults w))] ++ rest
    ∧ done !! "status" = Some "DONE"
    ∧ done !! "outputKey" = Some key
    ∧ done !! "finishedAt" = Some finished
    ∧ (next_fault (delete_faults w) = None →
       rest = [ExtenderStop rh] ∧ res r = Ok tt ∧ jobs (post r) !! job_id = Some done).
Proof.
  intros Hj Hi Hget Hred Hu1 Hdl Hrc Hul Hu2 r key local_in local_out.
  subst r key local_in local_out.
  destruct w as [jb ck td gf uf df ee upf delf rb].
  cbn [jobs get_item_faults update_item_faults download_faults upload_faults
       delete_faults tmpdir] in *.
  unfold next_exit in Hrc. cbn [encoder_exits] in Hrc.
  assert (bool_decide ((default (0%Z, "") (head ee)).1 ≠ 0%Z) = false) as Hrc'
    by (apply bool_decide_eq_false_2; rewrite Hrc; auto).
  enter_process_message Hj Hi Hget Hred.
  walk; rewrite Hrc; do 9 eexists; (split; [reflexivity|]);
    repeat split; try discriminate; lookups.
Qed.

Lemma finalization_order_witness :
  let w := Scenario.world Scenario.store1 ["t1"; "t2"; "t3"; "t4"] in
  let r := Worker.process_message (Py.JDict (list_to_map Scenario.job1)) "rh-1" w in
  ∃ (running done : Item) started stamped finished restamped cmd stderr rest,
    emitted r =
      [GetItem "J1" (Ok (jobs w !! "J1"));
       UpdateItem "J1"
         [("status", "RUNNING"); ("startedAt", started); ("updatedAt", stamped)]
         (Ok running);
       DownloadFile "input/a.mp4" "/tmp/tmpa1b2/input.mp4" None;
       ExtenderStart "rh-1";
       SubprocessRun cmd 0 stderr;
       UploadFile "/tmp/tmpa1b2/output.mp4" "output/J1.mp4" None;
       UpdateItem "J1"
         [("status", "DONE"); ("outputKey", "output/J1.mp4"); ("finishedAt", finished);
          ("updatedAt", restamped)]
         (Ok done);
       DeleteMessage "rh-1" None] ++ rest
    ∧ done !! "status" = Some "DONE"
    ∧ done !! "outputKey" = Some "output/J1.mp4"
    ∧ done !! "finishedAt" = Some finished
    ∧ (next_fault (delete_faults w) = None →
       rest = [ExtenderStop "rh-1"] ∧ res r = Ok tt ∧ jobs (post r) !! "J1" = Some done).
Proof.
  exact (finalization_order (list_to_map Scenario.job1) "rh-1"
           (Scenario.world Scenario.store1 ["t1"; "t2"; "t3"; "t4"]) "J1" "input/a.mp4"
           eq_refl eq_refl eq_refl eq_refl eq_refl eq_refl eq_refl eq_refl eq_refl).
Defined.

(** ** The failure paths *)

Lemma failure_text_nonempty rc cmd stderr : Transcode.failure_text rc cmd stderr ≠ "".
Proof. unfold Transcode.failure_text. cbn. discriminate. Qed.

(** A non-zero exit of the encoder is caught: the job is marked FAILED with
    the encoder's diagnostic, which is never empty, and the message is not
    deleted. *)
Lemma encode_failure_marks_failed (d : gmap string string) rh w job_id inputKey :
  d !! "jobId" = Some job_id →
  d !! "inputKey" = Some inputKey →
  next_fault (get_item_faults w) = None →
  Worker.redundant (jobs w !! job_id) = false →
  next_fault (update_item_faults w) = None →
  next_fault (download_faults w) = None →
  (next_exit w).1 ≠ 0%Z →
  next_fault (tail (update_item_faults w)) = None →
  let r := Worker.process_message (Py.JDict d) rh w in
  ∃ (running failed : Item) started stamped finished restamped cmd error,
    emitted r =
      [GetItem job_id (Ok (jobs w !! job_id));
       UpdateItem job_id
         [("status", "RUNNING"); ("startedAt", started); ("updatedAt", stamped)]
         (Ok running);
       DownloadFile inputKey (tmpdir w +:+ "/input.mp4") None;
       ExtenderStart rh;
       SubprocessRun cmd (next_exit w).1 (next_exit w).2;
       UpdateItem job_id
         [("status", "FAILED"); ("error", error); ("finishedAt", finished);
          ("updatedAt", restamped)]
         (Ok failed);
       ExtenderStop rh]
    ∧ error ≠ ""
    ∧ res r = Ok tt
    ∧ jobs (post r) !! job_id = Some failed
    ∧ failed !! "status" = Some "FAILED"
    ∧ failed !! "error" = Some error.
Proof.
  intros Hj Hi Hget Hred Hu1 Hdl Hrc Hu2 r. subst r.
  destruct w as [jb ck td gf uf df ee upf delf rb].
  cbn [jobs get_item_faults update_item_faults download_faults upload_faults
       delete_faults tmpdir] in *.
  unfold next_exit in *. cbn [encoder_exits] in *.
  assert (bool_decide ((default (0%Z, "") (head ee)).1 ≠ 0%Z) = true) as Hrc'
    by (by apply bool_decide_eq_true_2).
  enter_process_message Hj Hi Hget Hred.
  walk. do 8 eexists. split; [reflexivity|].
  split; [apply failure_text_nonempty|].
  repeat split; lookups.
Qed.

(** A failed upload is caught in the same way; the error text is the
    exception's own. *)
Lemma upload_failure_marks_failed (d : gmap string string) rh w job_id inputKey e :
  d !! "jobId" = Some job_id →
  d !! "inputKey" = Some inputKey →
  next_fault (get_item_faults w) = None →
  Worker.redundant (jobs w !! job_id) = false →
  next_fault (update_item_faults w) = None →
  next_fault (download_faults w) = None →
  (next_exit w).1 = 0%Z →
  next_fault (upload_faults w) = Some e →
  next_fault (tail (update_item_faults w)) = None →
  let r := Worker.process_message (Py.JDict d) rh w in
  ∃ (failed : Item) finished restamped before,
    emitted r =
      before ++
      [UploadFile (tmpdir w +:+ "/output.mp4") ("output/" +:+ job_id +:+ ".mp4") (Some e);
       UpdateItem job_id
         [("status", "FAILED"); ("error", Py.str_exn e); ("finishedAt", finished);
          ("updatedAt", restamped)]
         (Ok failed);
       ExtenderStop rh]
    ∧ res r = Ok tt
    ∧ jobs (post r) !! job_id = Some failed
    ∧ failed !! "status" = Some "FAILED".
Proof.
  intros Hj Hi Hget Hred Hu1 Hdl Hrc Hul Hu2 r. subst r.
  destruct w as [jb ck td gf uf df ee upf delf rb].
  cbn [jobs get_item_faults update_item_faults download_faults upload_faults
       delete_faults tmpdir] in *.
  unfold next_exit in *. cbn [encoder_exits] in *.
  assert (bool_decide ((default (0%Z, "") (head ee)).1 ≠ 0%Z) = false) as Hrc'
    by (apply bool_decide_eq_false_2; rewrite Hrc; auto).
  enter_process_message Hj Hi Hget Hred.
  walk. do 3 eexists.
  exists [GetItem job_id (Ok (jb !! job_id));
          UpdateItem job_id
            [("status", "RUNNING");
             ("startedAt", default "1970-01-01T00:00:00Z" (head ck));
             ("updatedAt", default "1970-01-01T00:00:00Z" (head (tail ck)))]
            (Ok (Aws.apply_set
                   [("status", "RUNNING");
                    ("startedAt", default "1970-01-01T00:00:00Z" (head ck));
                    ("updatedAt", default "1970-01-01T00:00:00Z" (head (tail ck)))]
                   (default {[ "jobId" := job_id ]} (jb !! job_id))));
          DownloadFile inputKey (td +:+ "/input.mp4") None;
          ExtenderStart rh;
          SubprocessRun
            (Transcode.command (td +:+ "/input.mp4") (td +:+ "/output.mp4")
               (resolved (default "mp4-720p" (d !! "preset"))) "high")
            (default (0%Z, "") (head ee)).1 (default (0%Z, "") (head ee)).2].
  split; [reflexivity|]. repeat split; lookups.
Qed.

(** A failed download is not: it happens before the [try], so the
    exception leaves [process_message] with the job RUNNING and no FAILED
    write. *)
Lemma download_failure_escapes (d : gmap string string) rh w job_id inputKey e :
  d !! "jobId" = Some job_id →
  d !! "inputKey" = Some inputKey →
  next_fault (get_item_faults w) = None →
  Worker.redundant (jobs w !! job_id) = false →
  next_fault (update_item_faults w) = None →
  next_fault (download_faults w) = Some e →
  let r := Worker.process_message (Py.JDict d) rh w in
  ∃ (running : Item) started stamped,
    emitted r =
      [GetItem job_id (Ok (jobs w !! job_id));
       UpdateItem job_id
         [("status", "RUNNING"); ("startedAt", started); ("updatedAt", stamped)]
         (Ok running);
       DownloadFile inputKey (tmpdir w +:+ "/input.mp4") (Some e)]
    ∧ res r = Raise e
    ∧ jobs (post r) !! job_id = Some running
    ∧ running !! "status" = Some "RUNNING".
Proof.
  intros Hj Hi Hget Hred Hu1 Hdl r. subst r.
  destruct w as [jb ck td gf uf df ee upf delf rb].
  cbn [jobs get_item_faults update_item_faults download_faults upload_faults
       delete_faults tmpdir] in *.
  enter_process_message Hj Hi Hget Hred.
  walk. do 3 eexists. split; [reflexivity|]. repeat split; lookups.
Qed.

Ltac by_evaluation :=
  intros; repeat (split; [vm_compute; reflexivity|]); vm_compute; reflexivity.

(** C3. J1's input cannot be downloaded: the exception is not caught at
    the per-message boundary.  It ends the consumer after four calls, with
    J1 left RUNNING rather than FAILED and the next delivery never
    received. *)
Theorem download_failure_halts_consumer :
  let r := Worker.poll_loop Scenario.loads 1800 2 Scenario.download_fails in
  res r = Raise Scenario.network_down
  ∧ status_of (jobs (post r) !! "J1") = Some "RUNNING"
  ∧ statuses "J1" (emitted r) = [Some "RUNNING"]
  ∧ receive_batches (post r) = [[Scenario.delivery Scenario.job2 "rh-2"]]
  ∧ length (emitted r) = 4%nat
  ∧ last (emitted r)
    = Some (DownloadFile "input/a.mp4" "/tmp/tmpa1b2/input.mp4"
              (Some Scenario.network_down)).
Proof. by_evaluation. Qed.

(** C6. The same failure seen from [process_message]: no FAILED status, no
    [error], no [finishedAt]; the only write is the one to RUNNING. *)
Theorem download_failure_not_marked :
  let r := Worker.process_message (Py.JDict (list_to_map Scenario.job1)) "rh-1"
             Scenario.download_fails in
  res r = Raise Scenario.network_down
  ∧ statuses "J1" (emitted r) = [Some "RUNNING"]
  ∧ (jobs (post r) !! "J1") ≫= (.!! "status") = Some "RUNNING"
  ∧ (jobs (post r) !! "J1") ≫= (.!! "error") = None
  ∧ (jobs (post r) !! "J1") ≫= (.!! "finishedAt") = None.
Proof. by_evaluation. Qed.

(** ** Updates of a DONE record *)

(** The worker's update sends no condition, so a record is overwritten
    whatever its status. *)
Lemma update_job_unconditional job_id fields w (it : Item) :
  jobs w !! job_id = Some it →
  next_fault (update_item_faults w) = None →
  let r := Worker._update_job job_id fields w in
  res r = Ok tt
  ∧ jobs (post r) !! job_id
    = Some (Aws.apply_set (Py.dict_set fields "updatedAt" (reading w)) it).
Proof.
  intros Hit Hf r. subst r. rewrite update_job_run. cbn zeta.
  rewrite Hf, Hit. cbn. by rewrite lookup_insert_eq.
Qed.

(** C1. An update of a DONE record is applied: status, error and the stamps
    are overwritten.  The API's [update_job], on the same record with the
    same fields, is refused. *)
Theorem update_overwrites_done :
  let w := Scenario.world {[ "J0" := Scenario.done0 ]} ["t9"] in
  let fields := [("status", "FAILED"); ("error", "boom"); ("finishedAt", "t8")] in
  let r := Worker._update_job "J0" fields w in
  let r' := Dal.update_job "J0" fields w in
  (jobs w !! "J0") ≫= (.!! "status") = Some "DONE"
  ∧ res r = Ok tt
  ∧ (jobs (post r) !! "J0") ≫= (.!! "status") = Some "FAILED"
  ∧ (jobs (post r) !! "J0") ≫= (.!! "error") = Some "boom"
  ∧ (jobs (post r) !! "J0") ≫= (.!! "updatedAt") = Some "t9"
  ∧ res r' = Raise Aws.conditional_check_failed
  ∧ (jobs (post r') !! "J0") ≫= (.!! "status") = Some "DONE"
  ∧ (jobs (post r') !! "J0") ≫= (.!! "updatedAt") = None.
Proof. by_evaluation. Qed.

(** C7. J1 is encoded, uploaded and marked DONE, then deleting its message
    fails: the handler's FAILED update overwrites the DONE record and leaves
    its [outputKey]. *)
Theorem failed_delete_leaves_output_key :
  let r := Worker.process_message (Py.JDict (list_to_map Scenario.job1)) "rh-1"
             Scenario.delete_fails in
  res r = Ok tt
  ∧ statuses "J1" (emitted r) = [Some "RUNNING"; Some "DONE"; Some "FAILED"]
  ∧ (jobs (post r) !! "J1") ≫= (.!! "status") = Some "FAILED"
  ∧ (jobs (post r) !! "J1") ≫= (.!! "outputKey") = Some "output/J1.mp4".
Proof. by_evaluation. Qed.

(** Two workers receive J1 and both pass the guard before either writes.
    The first finishes the job; the second then runs the rest of
    [process_message]: its RUNNING update lands on the DONE record. *)
Lemma late_worker_overwrites_done :
  let w := Scenario.world Scenario.store1 [] in
  let first := Worker.process_message (Py.JDict (list_to_map Scenario.job1)) "rh-1" w in
  let second := Worker.after_guard "J1" "input/a.mp4" "mp4-480p" "rh-2"
                  (set_download_faults [Some Scenario.network_down] (post first)) in
  (jobs (post first) !! "J1") ≫= (.!! "status") = Some "DONE"
  ∧ (jobs (post second) !! "J1") ≫= (.!! "status") = Some "RUNNING"
  ∧ (jobs (post second) !! "J1") ≫= (.!! "outputKey") = Some "output/J1.mp4".
Proof. by_evaluation. Qed.

(** ** The stamp of an update *)

Lemma dict_get_notin (d : Py.dict) k : k ∉ d.*1 → Py.dict_get d k = None.
Proof.
  induction d as [|[k' v'] d IH]; [done|]. cbn. intros Hnotin.
  apply not_elem_of_cons in Hnotin as [Hne Hnotin].
  destruct (String.eqb_spec k' k); [congruence|]. auto.
Qed.

Lemma apply_set_stamped (fields : Py.dict) (it : Item) t :
  NoDup fields.*1 →
  Aws.apply_set (Py.dict_set fields "updatedAt" t) it !! "updatedAt" = Some t.
Proof.
  revert it. induction fields as [|[k v] fields IH]; intros it Hnd.
  - cbn. by rewrite lookup_insert_eq.
  - cbn in Hnd. apply NoDup_cons in Hnd as [Hk Hnd]. cbn [Py.dict_set].
    destruct (String.eqb_spec k "updatedAt") as [->|Hne].
    + apply apply_set_lookup_head. by apply dict_get_notin.
    + change (Aws.apply_set ((k, v) :: Py.dict_set fields "updatedAt" t) it)
        with (Aws.apply_set (Py.dict_set fields "updatedAt" t) (<[k := v]> it)).
      by apply IH.
Qed.

(** Every update that is applied stores the clock's reading as [updatedAt]. *)
Lemma update_job_stamps job_id (fields : Py.dict) w :
  NoDup fields.*1 →
  next_fault (update_item_faults w) = None →
  (jobs (post (Worker._update_job job_id fields w)) !! job_id) ≫= (.!! "updatedAt")
  = Some (reading w).
Proof.
  intros Hnd Hf. rewrite update_job_run. cbn zeta. rewrite Hf. cbn.
  rewrite lookup_insert_eq. cbn. by apply apply_set_stamped.
Qed.

(** ** The outputKey invariant in a calm environment *)

Lemma fresh_record_no_output (jb : gmap string Item) job_id :
  output_inv jb →
  status_of (jb !! job_id) ≠ Some "DONE" →
  default {[ "jobId" := job_id ]} (jb !! job_id) !! "outputKey" = None.
Proof.
  intros Hinv Hd. destruct (jb !! job_id) as [b|] eqn:Hb; cbn in *.
  - destruct (b !! "outputKey") as [k|] eqn:Hk; [|done].
    exfalso. apply Hd. apply (Hinv job_id b Hb). by exists k.
  - by rewrite lookup_singleton_ne.
Qed.

Ltac inv_leaf job_id Hinv Hbase :=
  cbn [jobs]; intros j it Hlook;
  first
    [ exact (Hinv j it Hlook)
    | destruct (decide (j = job_id)) as [->|Hne];
      [ rewrite ?lookup_insert_eq in Hlook; injection Hlook as <-;
        repeat first [ rewrite lookup_insert_eq
                     | rewrite lookup_insert_ne by done
                     | progress cbn ];
        rewrite ?Hbase;
        split; intros H; first [ done | by destruct H | by eexists ]
      | rewrite ?lookup_insert_ne in Hlook by done; exact (Hinv j it Hlook) ] ].

(** Below the guard, as long as no deletion fails, [outputKey] is written
    together with DONE and with nothing else. *)
Lemma after_guard_output_inv job_id ik p rh w :
  calm w = true →
  status_of (jobs w !! job_id) ≠ Some "DONE" →
  output_inv (jobs w) →
  output_inv (jobs (post (Worker.after_guard job_id ik p rh w))).
Proof.
  intros Hc Hd Hinv.
  destruct w as [jb ck td gf uf df ee upf delf rb].
  apply andb_prop in Hc as [Hdel Hupd]. cbn in Hdel, Hupd, Hd, Hinv.
  assert (next_fault delf = None) as Hdel0.
  { pose proof (forallb_next (λ f, bool_decide (f = None)) delf eq_refl Hdel) as H.
    by apply bool_decide_eq_true in H. }
  pose proof (fresh_record_no_output jb job_id Hinv Hd) as Hbase.
  unfold Worker.after_guard. run_bind. unfold try_finally, try_except.
  unfold Worker._now, Aws.strftime_now, Aws.temporary_directory,
    Worker._download_from_s3, Aws.download_file, Worker.extender_start,
    Worker.extender_stop, Worker._upload_to_s3, Aws.upload_file,
    Worker._delete_msg, Aws.delete_message.
  walk; inv_leaf job_id Hinv Hbase.
Qed.

Lemma preserves_bind {A B} (P : World → Prop) (m : M A) (f : A → M B) :
  preserves P m → (∀ a, preserves P (f a)) → preserves P (m ≫= f).
Proof.
  intros Hm Hf w Hw. specialize (Hm w Hw). unfold mbind, M_bind, bind.
  destruct (m w) as [[a|e] w1 ev1]; cbn in *; [|done].
  specialize (Hf a w1 Hm). by destruct (f a w1) as [r w2 ev2].
Qed.

Lemma preserves_settled_quiet {A} (m : M A) :
  keeps same_jobs m → keeps stays_calm m → preserves settled m.
Proof.
  intros Hj Hc w [Hcalm Hinv]. split; [by apply Hc|]. by rewrite (Hj w).
Qed.

Lemma process_message_settled body rh : preserves settled (Worker.process_message body rh).
Proof.
  intros w [Hc Hinv]. split; [by apply process_message_calm|].
  unfold Worker.process_message. run_bind.
  destruct (Py.getitem body "jobId") as [job_id|e]; [|done].
  destruct (Py.getitem body "inputKey") as [ik|e]; [|done].
  destruct (Py.get body "preset" "mp4-720p") as [p|e]; [|done].
  unfold Worker._get_job, Aws.get_item.
  destruct (next_fault (get_item_faults w)) as [e|]; [done|].
  set (w1 := set_get_item_faults (tail (get_item_faults w)) w).
  destruct (Worker.redundant (jobs w !! job_id)) eqn:Hred.
  - pose proof (delete_jobs rh w1) as Hd.
    destruct (Worker._delete_msg rh w1) as [r w2 ev2]. cbn in *. by rewrite Hd.
  - apply redundant_false in Hred as [_ Hd].
    pose proof (after_guard_output_inv job_id ik p rh w1 Hc Hd Hinv) as Hag.
    by destruct (Worker.after_guard job_id ik p rh w1) as [r w2 ev2].
Qed.

Section LoopInvariant.

Variable json_loads : string → option Py.json.
Variable vis : Z.

Lemma for_msgs_settled msgs : preserves settled (Worker.for_msgs json_loads msgs).
Proof.
  induction msgs as [|m rest IH]; cbn [Worker.for_msgs]; [by intros w|].
  destruct (json_loads (Body m)); apply preserves_bind; try (intros _; exact IH).
  - apply process_message_settled.
  - apply preserves_settled_quiet; [apply delete_jobs|apply delete_calm].
Qed.

(** Over any rounds of the loop in a calm environment, [outputKey] stays
    present exactly in the DONE records. *)
Lemma poll_loop_settled n : preserves settled (Worker.poll_loop json_loads vis n).
Proof.
  induction n as [|n IH]; cbn [Worker.poll_loop]; [by intros w|].
  apply preserves_bind.
  - apply preserves_settled_quiet; [apply receive_jobs|apply receive_calm].
  - intros msgs. apply preserves_bind; [apply for_msgs_settled|]. intros _. exact IH.
Qed.

End LoopInvariant.

(** The table as the API leaves it for a new job is settled. *)
Lemma new_job_settled : settled (Scenario.world Scenario.store1 []).
Proof.
  split; [reflexivity|]. intros j it Hj. unfold Scenario.store1 in Hj. cbn in Hj.
  apply lookup_singleton_Some in Hj as [_ <-].
  split; [intros [k Hk]|intros Hs]; vm_compute in *; discriminate.
Qed.

(** * Further properties *)

(** ** The consumer loop *)

(** X1. A message whose body does not parse is deleted at once, with no
    read or write of the job table; the loop then goes on with the next
    round.  If the deletion itself fails, that exception ends the loop. *)
Theorem malformed_body_dropped json_loads vis m batches n w :
  receive_batches w = [m] :: batches →
  json_loads (Body m) = None →
  let w' := set_delete_faults (tail (delete_faults w)) (set_receive_batches batches w) in
  let first := [ReceiveMessage Worker.WAIT_TIME_SECONDS vis [m];
                DeleteMessage (ReceiptHandle m) (next_fault (delete_faults w))] in
  jobs w' = jobs w
  ∧ Worker.poll_loop json_loads vis (S n) w
    = match next_fault (delete_faults w) with
      | Some e => mkRun (Raise e) w' first
      | None =>
          let later := Worker.poll_loop json_loads vis n w' in
          mkRun (res later) (post later) (first ++ emitted later)
      end.
Proof.
  intros Hrecv Hload w' first. split; [reflexivity|].
  cbn [Worker.poll_loop]. run_bind. unfold Aws.receive_message.
  rewrite Hrecv. cbn [head tail default from_option id Worker.for_msgs].
  rewrite Hload. run_bind. unfold Worker._delete_msg, Aws.delete_message.
  cbn [delete_faults set_receive_batches]. fold w'.
  destruct (next_fault (delete_faults w)) as [e|]; [reflexivity|].
  cbn [ret mret M_ret]. fold w'.
  destruct (Worker.poll_loop json_loads vis n w') as [r w2 ev2]. reflexivity.
Qed.

Lemma malformed_body_dropped_witness :
  let r := Worker.poll_loop Scenario.loads 1800 2 Cases.poison in
  res r = Ok tt
  ∧ (jobs (post r) !! "J1") ≫= (.!! "status") = Some "DONE"
  ∧ firstn 2 (emitted r)
    = [ReceiveMessage 20 1800 [mkMsg "not json" "rh-0"]; DeleteMessage "rh-0" None].
Proof.
  destruct (malformed_body_dropped Scenario.loads 1800 (mkMsg "not json" "rh-0")
              [[Scenario.delivery Scenario.job1 "rh-1"]] 1 Cases.poison
              eq_refl eq_refl) as [_ Hrun].
  intros r. subst r. rewrite Hrun.
  repeat (split; [vm_compute; reflexivity|]). vm_compute. reflexivity.
Defined.

Lemma idle_tail w : idle w = true → idle (set_receive_batches (tail (receive_batches w)) w) = true.
Proof. unfold idle. cbn. apply forallb_tail. Qed.

Lemma idle_head w : idle w = true → default [] (head (receive_batches w)) = [].
Proof.
  unfold idle. destruct (receive_batches w) as [|b bs]; cbn; [done|].
  intros [Hb _]%andb_prop. by apply bool_decide_eq_true in Hb.
Qed.

(** X2. While the queue hands out no message, each round of the loop is
    one receive call and nothing else: no exception, no write, and the
    receive always asks for a wait of 20 and the configured visibility. *)
Theorem idle_polling json_loads vis n w :
  idle w = true →
  let r := Worker.poll_loop json_loads vis n w in
  res r = Ok tt
  ∧ emitted r = replicate n (ReceiveMessage 20 vis [])
  ∧ jobs (post r) = jobs w.
Proof.
  revert w. induction n as [|n IH]; intros w Hidle; [done|].
  cbn [Worker.poll_loop]. run_bind. unfold Aws.receive_message.
  rewrite (idle_head w Hidle). cbn [Worker.for_msgs ret mret M_ret].
  specialize (IH _ (idle_tail w Hidle)). cbn zeta in IH.
  destruct (Worker.poll_loop json_loads vis n _) as [r w2 ev2].
  cbn in IH |- *. destruct IH as (-> & -> & ->). done.
Qed.

Lemma idle_polling_witness :
  idle Cases.quiet = true
  ∧ emitted (Worker.poll_loop Scenario.loads 1800 5 Cases.quiet)
    = replicate 5 (ReceiveMessage 20 1800 []).
Proof.
  split; [reflexivity|].
  apply (idle_polling Scenario.loads 1800 5 Cases.quiet). reflexivity.
Defined.

(** ** The guard *)

(** X3. The guard holds a delivery back exactly when the stored status is
    RUNNING or DONE: PENDING, FAILED, any other status, a record without a
    status and a missing record all pass. *)
Theorem redundant_iff job :
  Worker.redundant job = true
  ↔ status_of job = Some "RUNNING" ∨ status_of job = Some "DONE".
Proof.
  split.
  - intros Hred. destruct job as [it|]; [|done]. unfold Worker.redundant in Hred.
    apply andb_prop in Hred as [_ Hst]. unfold status_of. cbn.
    destruct (it !! "status") as [s|]; [|done].
    apply orb_prop in Hst as [H|H]; apply bool_decide_eq_true in H; subst; auto.
  - intros Hst. destruct (Worker.redundant job) eqn:Hred; [done|].
    apply redundant_false in Hred as [? ?]. by destruct Hst.
Qed.

(** X4. When the guard's read of the job fails, the delivery ends with that
    exception after the read alone: nothing is written and the message is
    not deleted. *)
Theorem read_failure_does_nothing (d : gmap string string) rh w job_id inputKey e :
  d !! "jobId" = Some job_id →
  d !! "inputKey" = Some inputKey →
  next_fault (get_item_faults w) = Some e →
  Worker.process_message (Py.JDict d) rh w
  = mkRun (Raise e) (set_get_item_faults (tail (get_item_faults w)) w)
      [GetItem job_id (Raise e)].
Proof.
  intros Hj Hi Hget. unfold Worker.process_message. run_bind.
  cbn [Py.getitem Py.get]. rewrite Hj, Hi.
  unfold Worker._get_job, Aws.get_item. by rewrite Hget.
Qed.

Lemma read_failure_does_nothing_witness :
  let w := set_get_item_faults [Some Scenario.network_down]
             (Scenario.world Scenario.store1 []) in
  let r := Worker.process_message (Py.JDict (list_to_map Scenario.job1)) "rh-1" w in
  res r = Raise Scenario.network_down
  ∧ emitted r = [GetItem "J1" (Raise Scenario.network_down)]
  ∧ jobs (post r) = jobs w.
Proof.
  intros w r. subst r.
  rewrite (read_failure_does_nothing (list_to_map Scenario.job1) "rh-1" w "J1"
             "input/a.mp4" Scenario.network_down) by reflexivity.
  repeat split.
Defined.

(** ** The worker's SET update *)

Lemma dict_get_set (d : Py.dict) k v k' :
  Py.dict_get (Py.dict_set d k v) k'
  = if String.eqb k k' then Some v else Py.dict_get d k'.
Proof.
  induction d as [|[k0 v0] d IH]; cbn.
  - by destruct (String.eqb k k').
  - destruct (String.eqb_spec k0 k) as [->|Hne]; cbn.
    + by destruct (String.eqb k k').
    + rewrite IH. destruct (String.eqb_spec k0 k') as [->|Hne']; [|done].
      by destruct (String.eqb_spec k k') as [->|_].
Qed.

Lemma dict_set_keys_NoDup (d : Py.dict) k v :
  NoDup d.*1 → NoDup (Py.dict_set d k v).*1.
Proof.
  induction d as [|[k0 v0] d IH]; intros Hnd; cbn.
  - apply NoDup_singleton.
  - cbn in Hnd. apply NoDup_cons in Hnd as [Hk0 Hnd].
    destruct (String.eqb_spec k0 k) as [->|Hne]; cbn.
    + by apply NoDup_cons.
    + apply NoDup_cons. split; [|by apply IH].
      intros Hin. apply Hk0. clear IH Hnd Hk0.
      induction d as [|[k1 v1] d IHd]; cbn in *.
      * apply list_elem_of_singleton in Hin. congruence.
      * destruct (String.eqb_spec k1 k) as [->|Hne1]; cbn in *; [done|].
        apply elem_of_cons in Hin as [->|Hin]; [left|right; auto].
Qed.

Lemma dict_get_None_notin (d : Py.dict) k : Py.dict_get d k = None → k ∉ d.*1.
Proof.
  induction d as [|[k0 v0] d IH]; cbn; [intros _; apply not_elem_of_nil|].
  destruct (String.eqb_spec k0 k) as [->|Hne]; [done|].
  intros Hnone. apply not_elem_of_cons. auto.
Qed.

(** With distinct names, the SET clauses store what a lookup in the fields
    finds, and leave every other attribute. *)
Lemma apply_set_lookup (sets : Py.dict) (it : Item) k :
  NoDup sets.*1 →
  Aws.apply_set sets it !! k = match Py.dict_get sets k with
                               | Some v => Some v
                               | None => it !! k
                               end.
Proof.
  revert it. induction sets as [|[k0 v0] sets IH]; intros it Hnd; [done|].
  cbn in Hnd. apply NoDup_cons in Hnd as [Hk0 Hnd].
  change (Aws.apply_set ((k0, v0) :: sets) it)
    with (Aws.apply_set sets (<[k0 := v0]> it)).
  rewrite (IH _ Hnd). cbn [Py.dict_get].
  destruct (String.eqb_spec k0 k) as [->|Hne].
  - rewrite (dict_get_notin sets k Hk0). by rewrite lookup_insert_eq.
  - destruct (Py.dict_get sets k); [done|]. by rewrite lookup_insert_ne.
Qed.

(** The record an applied update leaves, attribute by attribute. *)
Lemma update_job_attributes job_id (fields : Py.dict) w :
  NoDup fields.*1 →
  next_fault (update_item_faults w) = None →
  let r := Worker._update_job job_id fields w in
  let old : Item := default {[ "jobId" := job_id ]} (jobs w !! job_id) in
  ∃ new : Item,
    res r = Ok tt
    ∧ jobs (post r) !! job_id = Some new
    ∧ ∀ k, new !! k = if String.eqb "updatedAt" k then Some (reading w)
                      else match Py.dict_get fields k with
                           | Some v => Some v
                           | None => old !! k
                           end.
Proof.
  intros Hnd Hf r old. subst r old. rewrite update_job_run. cbn zeta. rewrite Hf.
  eexists. split; [reflexivity|]. cbn [post jobs set_jobs].
  split; [apply lookup_insert_eq|].
  intros k. rewrite apply_set_lookup by by apply dict_set_keys_NoDup.
  rewrite dict_get_set. by destruct (String.eqb "updatedAt" k).
Qed.

(** X5. An update that goes through leaves, attribute by attribute, exactly
    this record: [updatedAt] is the clock's reading (also when the caller
    passed one), each field holds the value passed, and every other
    attribute is what the record held before (a record that did not exist
    starts from its key). *)
Theorem update_job_record job_id (fields : Py.dict) w :
  NoDup fields.*1 →
  next_fault (update_item_faults w) = None →
  let r := Worker._update_job job_id fields w in
  let old : Item := default {[ "jobId" := job_id ]} (jobs w !! job_id) in
  ∃ new : Item,
    res r = Ok tt
    ∧ jobs (post r) !! job_id = Some new
    ∧ ∀ k, new !! k = if String.eqb "updatedAt" k then Some (reading w)
                      else match Py.dict_get fields k with
                           | Some v => Some v
                           | None => old !! k
                           end.
Proof. apply update_job_attributes. Qed.

Lemma update_job_record_witness :
  let w := Scenario.world Scenario.store1 ["t5"] in
  let r := Worker._update_job "J1" [("status", "RUNNING"); ("updatedAt", "stale")] w in
  ∃ new : Item,
    jobs (post r) !! "J1" = Some new
    ∧ new !! "updatedAt" = Some "t5"
    ∧ new !! "status" = Some "RUNNING"
    ∧ new !! "inputKey" = Some "input/a.mp4".
Proof.
  intros w r.
  destruct (update_job_record "J1" [("status", "RUNNING"); ("updatedAt", "stale")] w)
    as (new & _ & Hnew & Hattr).
  - apply (bool_decide_unpack _). vm_compute. exact I.
  - reflexivity.
  - exists new. split; [exact Hnew|].
    rewrite !Hattr. repeat split; vm_compute; reflexivity.
Defined.

(** X6. An update for a job that has no record creates one (an upsert):
    the new record holds the key, the stamp and every field passed, and
    nothing else. *)
Theorem update_job_creates_missing job_id (fields : Py.dict) w :
  NoDup fields.*1 →
  next_fault (update_item_faults w) = None →
  jobs w !! job_id = None →
  Py.dict_get fields "jobId" = None →
  ∃ new : Item,
    res (Worker._update_job job_id fields w) = Ok tt
    ∧ jobs (post (Worker._update_job job_id fields w)) !! job_id = Some new
    ∧ new !! "jobId" = Some job_id
    ∧ new !! "updatedAt" = Some (reading w)
    ∧ (∀ k v, k ≠ "updatedAt" → Py.dict_get fields k = Some v → new !! k = Some v)
    ∧ ∀ k v, new !! k = Some v →
             k = "jobId" ∨ k = "updatedAt" ∨ Py.dict_get fields k = Some v.
Proof.
  intros Hnd Hf Hnone Hkey.
  destruct (update_job_attributes job_id fields w Hnd Hf) as (new & Hres & Hnew & Hattr).
  exists new. split; [exact Hres|]. split; [exact Hnew|]. rewrite Hnone in Hattr.
  change (default {[ "jobId" := job_id ]} None) with ({[ "jobId" := job_id ]} : Item)
    in Hattr.
  split; [|split; [|split]].
  - rewrite Hattr, Hkey. cbn. apply lookup_singleton_eq.
  - rewrite Hattr. by rewrite String.eqb_refl.
  - intros k v Hne Hk. rewrite Hattr, Hk.
    destruct (String.eqb_spec "updatedAt" k) as [<-|_]; done.
  - intros k v Hk. rewrite Hattr in Hk.
    destruct (String.eqb_spec "updatedAt" k) as [<-|_]; [auto|].
    destruct (Py.dict_get fields k) as [v'|]; [auto|].
    apply lookup_singleton_Some in Hk as [<- _]. auto.
Qed.

Lemma update_job_creates_missing_witness :
  let w := Scenario.world Scenario.store1 ["t5"] in
  ∃ new : Item,
    jobs (post (Worker._update_job "J9" [("status", "RUNNING"); ("startedAt", "t4")] w))
      !! "J9" = Some new
    ∧ new !! "jobId" = Some "J9"
    ∧ new !! "updatedAt" = Some "t5"
    ∧ new !! "status" = Some "RUNNING"
    ∧ new !! "startedAt" = Some "t4"
    ∧ new !! "inputKey" = None.
Proof.
  intros w.
  destruct (update_job_creates_missing "J9"
              [("status", "RUNNING"); ("startedAt", "t4")] w)
    as (new & _ & Hnew & Hkey & Hstamp & Hheld & Honly).
  - apply (bool_decide_unpack _). vm_compute. exact I.
  - reflexivity.
  - reflexivity.
  - reflexivity.
  - exists new. split; [exact Hnew|]. split; [exact Hkey|]. split; [exact Hstamp|].
    split; [apply Hheld; [discriminate|reflexivity]|].
    split; [apply Hheld; [discriminate|reflexivity]|].
    destruct (new !! "inputKey") as [v|] eqn:Hv; [|done].
    destruct (Honly _ _ Hv) as [H|[H|H]]; discriminate H.
Defined.

(** X7. Whether it is applied, refused or fails, an update never touches
    the record of another job. *)
Theorem update_job_other_jobs job_id fields w j :
  j ≠ job_id →
  jobs (post (Worker._update_job job_id fields w)) !! j = jobs w !! j.
Proof. intros Hne. by apply (update_job_except job_id fields w). Qed.

Lemma update_job_other_jobs_witness :
  let w := Scenario.world Scenario.store2 [] in
  jobs (post (Worker._update_job "J1" [("status", "FAILED")] w)) !! "J0"
  = Some Scenario.done0.
Proof.
  intros w.
  rewrite (update_job_other_jobs "J1" [("status", "FAILED")] w "J0") by discriminate.
  reflexivity.
Defined.

(** X8. When [update_item] fails, nothing is written.  A failure that is
    not a ClientError with code ConditionalCheckFailedException is raised
    to the caller as it is; that one code is swallowed and the call returns
    normally. *)
Theorem update_job_failure job_id fields w e :
  next_fault (update_item_faults w) = Some e →
  let r := Worker._update_job job_id fields w in
  jobs (post r) = jobs w
  ∧ statuses job_id (emitted r) = []
  ∧ res r = if swallowed e then Ok tt else Raise e.
Proof.
  intros Hf r. subst r. rewrite update_job_run. cbn zeta. rewrite Hf.
  split; [reflexivity|]. split.
  - unfold statuses, writes. cbn. reflexivity.
  - cbn [res]. unfold Worker.ignore_conditional, swallowed.
    destruct e; try reflexivity. by case_bool_decide.
Qed.

Lemma update_job_failure_witness :
  let r := Worker._update_job "J1" [("status", "RUNNING")] Cases.throttled in
  jobs (post r) = jobs Cases.throttled
  ∧ res r = Raise (ClientError "ProvisionedThroughputExceededException" "throttled").
Proof.
  intros r.
  destruct (update_job_failure "J1" [("status", "RUNNING")] Cases.throttled
              (ClientError "ProvisionedThroughputExceededException" "throttled")
              eq_refl) as (Hjobs & _ & Hres).
  split; [exact Hjobs|exact Hres].
Defined.

(** ** The API's data access layer *)

Lemma placeholder_not_st i : "#k" +:+ pretty (S i) ≠ "#st".
Proof. cbn. discriminate. Qed.

Lemma placeholder_not_done i : ":v" +:+ pretty (S i) ≠ ":done".
Proof. cbn. discriminate. Qed.

Lemma mapM_ext_Forall {A B} (f g : A → option B) (l : list A) :
  Forall (λ x, f x = g x) l → mapM f l = mapM g l.
Proof.
  induction 1 as [|x l Hx Hl IH]; [done|]. cbn. by rewrite Hx, IH.
Qed.

(** The condition placeholders [update_job] adds do not disturb the
    clauses: they still denote the fields. *)
Lemma resolve_set_fields_dal (fields : Py.dict) :
  Aws.resolve_set (Py.dict_set (Worker.names_of fields) "#st" "status")
    (Py.dict_set (Worker.vals_of fields) ":done" "DONE")
    (Worker.expr_of (Worker.names_of fields) (Worker.vals_of fields))
  = Some fields.
Proof.
  unfold Aws.resolve_set.
  rewrite (mapM_ext_Forall _ (Aws.resolve_clause (Worker.names_of fields)
                                (Worker.vals_of fields))).
  { apply resolve_set_fields. }
  apply Forall_lookup. intros i cl Hcl.
  unfold Worker.expr_of in Hcl. apply lookup_zip_with_Some in Hcl
    as (nk & vk & -> & Hnk & Hvk).
  unfold Worker.names_of in Hnk. unfold Worker.vals_of in Hvk.
  rewrite list_lookup_fmap, list_lookup_imap in Hnk, Hvk.
  match type of Hnk with
  | fst <$> (_ <$> ?o) = _ => destruct o as [kv|]; simpl in Hnk, Hvk; [|discriminate Hnk]
  end.
  injection Hnk as <-. injection Hvk as <-.
  unfold Aws.resolve_clause. cbn [fst snd]. rewrite !dict_get_set.
  destruct (String.eqb_spec "#st" ("#k" +:+ pretty (S i))) as [Heq|_];
    [by destruct (placeholder_not_st i)|].
  destruct (String.eqb_spec ":done" (":v" +:+ pretty (S i))) as [Heq|_];
    [by destruct (placeholder_not_done i)|].
  reflexivity.
Qed.

(** What [update_job] does to the table, case by case. *)
Lemma dal_update_job_run job_id fields w :
  Dal.update_job job_id fields w =
    let sets := Py.dict_set fields "updatedAt" (reading w) in
    let w' := set_update_item_faults (tail (update_item_faults w)) (tick w) in
    let stored := jobs w !! job_id in
    match next_fault (update_item_faults w) with
    | Some e => mkRun (Raise e) w' [UpdateItem job_id sets (Raise e)]
    | None =>
        if match stored ≫= (.!! "jobId") with Some _ => false | None => true end
           || match stored ≫= (.!! "status") with
              | Some y => negb (bool_decide (y = "DONE"))
              | None => true
              end
        then
          let it := Aws.apply_set sets (default {[ "jobId" := job_id ]} stored) in
          mkRun (Ok it) (set_jobs (<[job_id := it]> (jobs w)) w')
                [UpdateItem job_id sets (Ok it)]
        else
          mkRun (Raise Aws.conditional_check_failed) w'
                [UpdateItem job_id sets (Raise Aws.conditional_check_failed)]
    end.
Proof.
  unfold Dal.update_job, Dal.now_iso, Aws.strftime_now, mbind, M_bind, bind,
    Aws.update_item.
  fold (reading w). rewrite resolve_set_fields_dal.
  cbn [Aws.eval_cond]. rewrite !dict_get_set. cbn [String.eqb Ascii.eqb Bool.eqb].
  cbn [update_item_faults set_clock jobs]. fold (tick w).
  destruct (next_fault (update_item_faults w)) as [e|]; [reflexivity|].
  by destruct (_ || _).
Qed.

(** X9. The API's [update_job] refuses to touch a DONE record: it raises
    ConditionalCheckFailedException and the table stays as it is. *)
Theorem dal_update_job_refuses_done job_id fields w (it : Item) :
  jobs w !! job_id = Some it →
  is_Some (it !! "jobId") →
  it !! "status" = Some "DONE" →
  next_fault (update_item_faults w) = None →
  let r := Dal.update_job job_id fields w in
  res r = Raise Aws.conditional_check_failed ∧ jobs (post r) = jobs w.
Proof.
  intros Hit [k Hk] Hst Hf r. subst r. rewrite dal_update_job_run. cbn zeta.
  rewrite Hf, Hit. cbn. rewrite Hk, Hst. done.
Qed.

Lemma dal_update_job_refuses_done_witness :
  let w := Scenario.world {[ "J0" := Scenario.done0 ]} ["t9"] in
  let r := Dal.update_job "J0" [("status", "FAILED")] w in
  res r = Raise Aws.conditional_check_failed ∧ jobs (post r) = jobs w.
Proof.
  apply (dal_update_job_refuses_done "J0" [("status", "FAILED")]
           (Scenario.world {[ "J0" := Scenario.done0 ]} ["t9"]) Scenario.done0);
    first [reflexivity | by eexists].
Defined.



(** X11. [put_job] followed by [get_job] gives back the item that was put,
    with [createdAt] filled in from the clock only if the item had none; a
    record already stored under the key is replaced as a whole. *)
Theorem put_then_get (item : Item) job_id w :
  item !! "jobId" = Some job_id →
  next_fault (get_item_faults w) = None →
  let stored := match item !! "createdAt" with
                | Some _ => item
                | None => <["createdAt" := reading w]> item
                end in
  let r := (Dal.put_job item ≫= λ _, Dal.get_job job_id) w in
  res r = Ok (Some stored)
  ∧ is_Some (stored !! "createdAt")
  ∧ emitted r = [PutItem stored; GetItem job_id (Ok (Some stored))].
Proof.
  intros Hkey Hget stored r. subst r.
  unfold Dal.put_job, Dal.now_iso, Dal.get_job, Aws.strftime_now, Aws.put_item,
    Aws.get_item, mbind, M_bind, bind.
  fold (reading w). fold stored.
  assert (stored !! "jobId" = Some job_id) as ->.
  { unfold stored. destruct (item !! "createdAt"); [done|].
    by rewrite lookup_insert_ne. }
  cbn [get_item_faults set_jobs set_clock jobs]. rewrite Hget.
  rewrite lookup_insert_eq. split; [reflexivity|]. split; [|reflexivity].
  unfold stored. destruct (item !! "createdAt") eqn:Hc; [by rewrite Hc|].
  rewrite lookup_insert_eq. by eexists.
Qed.

Lemma put_then_get_witness :
  let w := Scenario.world Scenario.store1 ["t7"] in
  let item : Item := list_to_map (("status", "PENDING") :: Scenario.job1) in
  let r := (Dal.put_job item ≫= λ _, Dal.get_job "J1") w in
  res r = Ok (Some (<["createdAt" := "t7"]> item)).
Proof.
  intros w item r.
  exact (proj1 (put_then_get item "J1" w eq_refl eq_refl)).
Defined.

(** ** Configuration *)

(** X12. When validation fails, the error names exactly the settings that
    are unset or empty, in the order S3_BUCKET, SQS_URL, DDB_JOBS_TABLE. *)
Theorem assert_core_env_reports (cfg : Config.Settings) :
  let names :=
    (if Py.truthy (Config.S3_BUCKET cfg) then [] else ["S3_BUCKET"])
    ++ (if Py.truthy (Config.SQS_URL cfg) then [] else ["SQS_URL"])
    ++ (if bool_decide (Config.DDB_JOBS_TABLE cfg = "") then ["DDB_JOBS_TABLE"] else []) in
  Config.assert_core_env cfg
  = match names with
    | [] => Ok tt
    | _ => Raise (RuntimeError ("Missing required env vars: " +:+ Py.repr_list names))
    end.
Proof.
  intros names. unfold Config.assert_core_env. rewrite missing_spec. fold names.
  by destruct names.
Qed.

(** X13. A lease ceiling or a presign expiry that is set but is not a
    number stops the worker before validation and before the first poll,
    with a ValueError, whatever else the environment holds. *)
Theorem bad_number_is_fatal py_int json_loads (environ : gmap string string) n w s :
  (environ !! "PRESIGN_EXP_SECS" = Some s ∨ environ !! "MAX_VIS_TIMEOUT" = Some s) →
  py_int s = None →
  ∃ msg, Worker.main py_int json_loads environ n w = mkRun (Raise (ValueError msg)) w [].
Proof.
  intros Hset Hbad. unfold Worker.main, Config.startup, Config.load, Config.int_of.
  run_bind. destruct Hset as [Hp|Hv].
  - rewrite Hp. cbn [default from_option id]. rewrite Hbad. by eexists.
  - destruct (py_int (default "900" (environ !! "PRESIGN_EXP_SECS"))); [|by eexists].
    rewrite Hv. cbn [default from_option id]. rewrite Hbad. by eexists.
Qed.

Lemma bad_number_is_fatal_witness :
  let environ : gmap string string :=
    <["MAX_VIS_TIMEOUT" := "30m"]>
      (<["S3_BUCKET" := "a3-videos"]> (<["SQS_URL" := "https://sqs/q"]> ∅)) in
  ∃ msg, Worker.main Scenario.dec_int Scenario.loads environ 3 Cases.quiet
         = mkRun (Raise (ValueError msg)) Cases.quiet [].
Proof.
  intros environ.
  apply (bad_number_is_fatal Scenario.dec_int Scenario.loads environ 3 Cases.quiet "30m");
    [right; reflexivity | reflexivity].
Defined.

(** ** The encoder's command line *)

Lemma lower_ascii_idem c : Py.lower_ascii (Py.lower_ascii c) = Py.lower_ascii c.
Proof. destruct c as [[] [] [] [] [] [] [] []]; reflexivity. Qed.

Lemma lower_idem s : Py.lower (Py.lower s) = Py.lower s.
Proof. induction s as [|c s IH]; [done|]. cbn. by rewrite lower_ascii_idem, IH. Qed.

Lemma lower_empty s : Py.lower s = "" ↔ s = "".
Proof. by destruct s. Qed.

(** X14. The intensity level is read without regard to case, and every
    level other than low, medium and max (the empty one too) gives the
    arguments of "high": preset veryslow. *)
Theorem intensity_levels level :
  Transcode._args_for_intensity level = Transcode._args_for_intensity (Py.lower level)
  ∧ (Py.lower level ≠ "low" → Py.lower level ≠ "medium" → Py.lower level ≠ "max" →
     Transcode._args_for_intensity level
     = ["-c:v"; "libx264"; "-preset"; "veryslow"; "-threads"; "0"]).
Proof.
  unfold Transcode._args_for_intensity. split.
  - destruct (decide (level = "")) as [->|Hne]; [done|].
    assert (Py.lower level ≠ "") as Hne' by (by rewrite lower_empty).
    rewrite (bool_decide_eq_false_2 _ Hne), (bool_decide_eq_false_2 _ Hne').
    by rewrite lower_idem.
  - intros Hl Hm Hx. destruct (decide (level = "")) as [->|Hne]; [done|].
    rewrite (bool_decide_eq_false_2 _ Hne).
    by rewrite (bool_decide_eq_false_2 _ Hl), (bool_decide_eq_false_2 _ Hm),
      (bool_decide_eq_false_2 _ Hx).
Qed.

Lemma intensity_levels_witness :
  Transcode._args_for_intensity "Ultra"
  = ["-c:v"; "libx264"; "-preset"; "veryslow"; "-threads"; "0"]
  ∧ Transcode._args_for_intensity "LOW" = Transcode._args_for_intensity "low".
Proof.
  split.
  - apply (proj2 (intensity_levels "Ultra")); discriminate.
  - apply (proj1 (intensity_levels "LOW")).
Defined.

(** X15. The command always starts with the overwriting, quiet ffmpeg call
    on the input path, ends with the output path, drops audio, and carries
    the preset's CRF right after "-crf", for every intensity. *)
Theorem command_shape in_path out_path spec intensity :
  let cmd := Transcode.command in_path out_path spec intensity in
  firstn 7 cmd = ["ffmpeg"; "-y"; "-hide_banner"; "-loglevel"; "error"; "-i"; in_path]
  ∧ last cmd = Some out_path
  ∧ (∃ before after, cmd = before ++ ["-crf"; pretty (Transcode.crf spec)] ++ after)
  ∧ "-an" ∈ cmd.
Proof.
  intros cmd. subst cmd. unfold Transcode.command, Transcode.video_args.
  split; [reflexivity|]. split.
  - rewrite !app_assoc. apply last_snoc.
  - split.
    + exists (["ffmpeg"; "-y"; "-hide_banner"; "-loglevel"; "error"; "-i"; in_path;
               "-vf"; "scale=" +:+ pretty (Transcode.width spec) +:+ ":"
                      +:+ pretty (Transcode.height spec) +:+ ":flags=lanczos"]
              ++ Transcode._args_for_intensity intensity),
             ["-pix_fmt"; "yuv420p"; "-movflags"; "+faststart"; "-an"; out_path].
      cbn [app]. rewrite <- !app_assoc. reflexivity.
    + rewrite !elem_of_app, !elem_of_cons. tauto.
Qed.



(** ** The discipline of one delivery *)

Lemma ignore_conditional_run e w :
  Worker.ignore_conditional e w = mkRun (if swallowed e then Ok tt else Raise e) w [].
Proof.
  unfold Worker.ignore_conditional, swallowed. destruct e; try reflexivity.
  by case_bool_decide.
Qed.

Ltac walk_any_step :=
  match goal with
  | |- context [Worker._update_job _ _ _] =>
      rewrite update_job_run; norm_run; rewrite ?lookup_insert_eq
  | |- context [Transcode.run_ffmpeg _ _ _ _ _] => rewrite run_ffmpeg_run
  | |- context [Worker.ignore_conditional ?e _] =>
      rewrite ignore_conditional_run; destruct (swallowed e)
  | |- context [bool_decide (?x ≠ 0%Z)] =>
      let H := fresh "Hrc" in destruct (bool_decide (x ≠ 0%Z)) eqn:H
  | |- context [match next_fault ?s with _ => _ end] =>
      let H := fresh "Hf" in destruct (next_fault s) eqn:H
  end.

Ltac walk_any := norm_run; repeat (walk_any_step; norm_run).

Ltac discipline_leaf :=
  unfold disciplined, extender_closed, count; cbn;
  rewrite ?bool_decide_eq_true_2 by reflexivity; reflexivity.

Lemma after_guard_disciplined job_id ik p rh w :
  disciplined job_id rh ik (emitted (Worker.after_guard job_id ik p rh w)) = true.
Proof.
  destruct w as [jb ck td gf uf df ee upf delf rb].
  unfold Worker.after_guard. run_bind. unfold try_finally, try_except.
  unfold Worker._now, Aws.strftime_now, Aws.temporary_directory,
    Worker._download_from_s3, Aws.download_file, Worker.extender_start,
    Worker.extender_stop, Worker._upload_to_s3, Aws.upload_file,
    Worker._delete_msg, Aws.delete_message.
  walk_any; discipline_leaf.
Qed.

Lemma disciplined_after_read job_id rh ik got tr :
  disciplined job_id rh ik tr = true →
  disciplined job_id rh ik (GetItem job_id got :: tr) = true.
Proof.
  unfold disciplined, extender_closed, count. cbn [forallb event_ok List.filter
    is_run is_delete is_start is_stop].
  rewrite (bool_decide_eq_true_2 (job_id = job_id)) by reflexivity. cbn [andb].
  destruct tr as [|ev tr]; [done|].
  by change (last (GetItem job_id got :: ev :: tr)) with (last (ev :: tr)).
Qed.

(** X17. Whatever fails on the way, one delivery stays within its own
    business: it reads and updates only the job named in the message,
    downloads only the message's input key, uploads only to
    output/<jobId>.mp4, deletes only its own message and at most once, never
    polls the queue or puts a record, and runs the encoder at most once.
    A lease extender that was started is stopped as the last thing the
    delivery does. *)
Theorem delivery_discipline (d : gmap string string) rh w job_id inputKey :
  d !! "jobId" = Some job_id →
  d !! "inputKey" = Some inputKey →
  disciplined job_id rh inputKey
    (emitted (Worker.process_message (Py.JDict d) rh w)) = true.
Proof.
  intros Hj Hi. unfold Worker.process_message. run_bind.
  cbn [Py.getitem Py.get]. rewrite Hj, Hi.
  unfold Worker._get_job, Aws.get_item.
  destruct (next_fault (get_item_faults w)) as [e|]; [by discipline_leaf|].
  destruct (Worker.redundant (jobs w !! job_id)).
  - unfold Worker._delete_msg, Aws.delete_message.
    destruct (next_fault _); by discipline_leaf.
  - pose proof (after_guard_disciplined job_id inputKey
                  (default "mp4-720p" (d !! "preset")) rh
                  (set_get_item_faults (tail (get_item_faults w)) w)) as Hag.
    destruct (Worker.after_guard _ _ _ _ _) as [r w2 ev2]. cbn [emitted app] in *.
    by apply disciplined_after_read.
Qed.

Lemma delivery_discipline_witness :
  disciplined "J1" "rh-1" "input/a.mp4"
    (emitted (Worker.process_message (Py.JDict (list_to_map Scenario.job1)) "rh-1"
                Scenario.delete_fails)) = true
  ∧ count is_start
      (emitted (Worker.process_message (Py.JDict (list_to_map Scenario.job1)) "rh-1"
                  Scenario.delete_fails)) = 1%nat.
Proof.
  split; [|vm_compute; reflexivity].
  apply (delivery_discipline (list_to_map Scenario.job1) "rh-1" Scenario.delete_fails
           "J1" "input/a.mp4"); reflexivity.
Defined.

(** ** Failures inside the guarded block *)

(** X18. A failure of the encoder or of the upload is caught and the job is
    left for a retry: the delivery ends normally, the message is not
    deleted, the record is marked FAILED with an error text and a finishing
    time, its [outputKey] is what it was, and the guard will let the
    redelivery through. *)
Theorem handled_failure_left_for_retry (d : gmap string string) rh w job_id inputKey :
  d !! "jobId" = Some job_id →
  d !! "inputKey" = Some inputKey →
  next_fault (get_item_faults w) = None →
  Worker.redundant (jobs w !! job_id) = false →
  next_fault (update_item_faults w) = None →
  next_fault (download_faults w) = None →
  next_fault (tail (update_item_faults w)) = None →
  (next_exit w).1 ≠ 0%Z ∨ is_Some (next_fault (upload_faults w)) →
  let r := Worker.process_message (Py.JDict d) rh w in
  ∃ failed : Item,
    res r = Ok tt
    ∧ count is_delete (emitted r) = 0%nat
    ∧ jobs (post r) !! job_id = Some failed
    ∧ failed !! "status" = Some "FAILED"
    ∧ is_Some (failed !! "error")
    ∧ is_Some (failed !! "finishedAt")
    ∧ failed !! "outputKey" = (jobs w !! job_id) ≫= (.!! "outputKey")
    ∧ Worker.redundant (Some failed) = false.
Proof.
  intros Hj Hi Hget Hred Hu1 Hdl Hu2 Hor r. subst r.
  assert (default ({[ "jobId" := job_id ]} : Item) (jobs w !! job_id) !! "outputKey"
          = (jobs w !! job_id) ≫= (.!! "outputKey")) as Hout.
  { destruct (jobs w !! job_id) as [it|]; [reflexivity|].
    cbn. by rewrite lookup_singleton_ne. }
  assert (∀ it : Item, it !! "status" = Some "FAILED" → Worker.redundant (Some it) = false)
    as Hretry.
  { intros it Hst. unfold Worker.redundant. rewrite Hst. apply andb_false_r. }
  destruct w as [jb ck td gf uf df ee upf delf rb].
  cbn [jobs get_item_faults update_item_faults download_faults upload_faults
       delete_faults tmpdir] in *.
  unfold next_exit in *. cbn [encoder_exits] in *.
  destruct (decide ((default (0%Z, "") (head ee)).1 = 0%Z)) as [Hrc|Hrc].
  - destruct Hor as [?|[e Hul]]; [done|].
    assert (bool_decide ((default (0%Z, "") (head ee)).1 ≠ 0%Z) = false) as Hrc'
      by (apply bool_decide_eq_false_2; rewrite Hrc; auto).
    clear Hrc.
    enter_process_message Hj Hi Hget Hred.
    walk. eexists. split; [reflexivity|]. split; [reflexivity|].
    split; [lookups|].
    repeat split; try apply Hretry; lookups; eauto.
  - assert (bool_decide ((default (0%Z, "") (head ee)).1 ≠ 0%Z) = true) as Hrc'
      by (by apply bool_decide_eq_true_2).
    clear Hrc Hor.
    enter_process_message Hj Hi Hget Hred.
    walk. eexists. split; [reflexivity|]. split; [reflexivity|].
    split; [lookups|].
    repeat split; try apply Hretry; lookups; eauto.
Qed.

Lemma handled_failure_left_for_retry_witness :
  let w := Cases.encoder_fails in
  let r := Worker.process_message (Py.JDict (list_to_map Scenario.job1)) "rh-1" w in
  ∃ failed : Item,
    res r = Ok tt
    ∧ count is_delete (emitted r) = 0%nat
    ∧ jobs (post r) !! "J1" = Some failed
    ∧ failed !! "status" = Some "FAILED"
    ∧ is_Some (failed !! "error")
    ∧ is_Some (failed !! "finishedAt")
    ∧ failed !! "outputKey" = (jobs w !! "J1") ≫= (.!! "outputKey")
    ∧ Worker.redundant (Some failed) = false.
Proof.
  apply (handled_failure_left_for_retry (list_to_map Scenario.job1) "rh-1"
           Cases.encoder_fails "J1" "input/a.mp4");
    first [reflexivity | left; discriminate].
Defined.

(** X19. While no deletion of a queue message fails and the table answers
    no failed condition, any number of rounds of the consumer loop keeps the
    table in the state where a record has an [outputKey] exactly when its
    status is DONE, whatever the queue delivers and however the other calls
    end. *)
Theorem output_key_marks_done json_loads vis n w :
  settled w → settled (post (Worker.poll_loop json_loads vis n w)).
Proof. apply poll_loop_settled. Qed.

Lemma output_key_marks_done_witness :
  settled Cases.poison
  ∧ settled (post (Worker.poll_loop Scenario.loads 1800 2 Cases.poison)).
Proof.
  assert (settled Cases.poison) as Hstart
    by (split; [reflexivity|exact (proj2 new_job_settled)]).
  split; [exact Hstart|].
  exact (output_key_marks_done Scenario.loads 1800 2 Cases.poison Hstart).
Defined.

(** X20. The placeholder names, placeholder values and SET clauses that
    [_update_job] builds from its fields resolve back to exactly those
    fields, in order, however many there are. *)
Theorem set_clauses_denote_fields (fields : Py.dict) :
  Aws.resolve_set (Worker.names_of fields) (Worker.vals_of fields)
    (Worker.expr_of (Worker.names_of fields) (Worker.vals_of fields))
  = Some fields.
Proof. apply resolve_set_fields. Qed.

(** ** Login and job status *)

(** X21. Login never fails with an exception: it answers 401 unless the
    user is known and the password is the stored one, and then returns a
    bearer token made for that user and the user's stored role. *)
Theorem login_outcome create_access_token username pw :
  Api.login create_access_token username pw
  = match Api.USERS !! username with
    | Some rec =>
        if bool_decide (Api.password rec = pw)
        then Ok (Api.Response
                   (Api.mkLoginRes (create_access_token username (Api.role rec))
                      "bearer" (Api.role rec)))
        else Ok (Api.HTTPException 401 "Invalid credentials")
    | None => Ok (Api.HTTPException 401 "Invalid credentials")
    end.
Proof.
  unfold Api.login, Api.validate_login.
  destruct (Api.USERS !! username) as [rec|]; [|done].
  by destruct (bool_decide (Api.password rec = pw)).
Qed.

(** X22. The status endpoint answers "404 Job not found" both when the job
    does not exist and when it belongs to another user, so the two cannot be
    told apart; it reads the table once and writes nothing. *)
Theorem job_status_private presigned_get job_id username w :
  next_fault (get_item_faults w) = None →
  (∀ it : Item, jobs w !! job_id = Some it → it !! "userId" ≠ Some username) →
  let r := Api.job_status presigned_get job_id username w in
  res r = Ok (Api.HTTPException 404 "Job not found")
  ∧ emitted r = [GetItem job_id (Ok (jobs w !! job_id))]
  ∧ jobs (post r) = jobs w.
Proof.
  intros Hget Hforeign r. subst r.
  unfold Api.job_status, Dal.get_job, Aws.get_item. run_bind. rewrite Hget.
  destruct (jobs w !! job_id) as [it|] eqn:Hit; [|done].
  specialize (Hforeign it eq_refl).
  rewrite (bool_decide_eq_false_2 _ Hforeign). cbn [negb]. rewrite orb_true_r. done.
Qed.

Lemma job_status_private_witness :
  let w := Scenario.world {[ "J0" := Cases.finished ]} [] in
  res (Api.job_status Cases.presign "J0" "u2" w)
  = Ok (Api.HTTPException 404 "Job not found")
  ∧ res (Api.job_status Cases.presign "J7" "u1" w)
    = Ok (Api.HTTPException 404 "Job not found").
Proof.
  intros w. split.
  - apply (job_status_private Cases.presign "J0" "u2" w); [reflexivity|].
    intros it Hit Hown.
    assert ((jobs w !! "J0") ≫= (.!! "userId") = Some "u2") as Heq
      by (rewrite Hit; exact Hown).
    vm_compute in Heq. discriminate Heq.
  - apply (job_status_private Cases.presign "J7" "u1" w); [reflexivity|].
    intros it Hit. assert (is_Some (jobs w !! "J7")) as [x Hx] by (by rewrite Hit).
    vm_compute in Hx. discriminate Hx.
Defined.

(** X23. The owner of a job gets the stored record back; a download link
    is added exactly when the status is DONE and the record has a non-empty
    [outputKey], and it is the presigned URL of that key. *)
Theorem job_status_download_link presigned_get job_id username w (it : Item) :
  next_fault (get_item_faults w) = None →
  jobs w !! job_id = Some it →
  it !! "userId" = Some username →
  let r := Api.job_status presigned_get job_id username w in
  jobs (post r) = jobs w
  ∧ (it !! "status" ≠ Some "DONE" ∨ Py.truthy (it !! "outputKey") = false →
     res r = Ok (Api.Response it))
  ∧ (∀ key, it !! "status" = Some "DONE" → it !! "outputKey" = Some key → key ≠ "" →
     res r = Ok (Api.Response (<["downloadUrl" := presigned_get key]> it))).
Proof.
  intros Hget Hit Howner r. subst r.
  unfold Api.job_status, Dal.get_job, Aws.get_item. run_bind. rewrite Hget, Hit.
  assert (it ≠ ∅) as Hne by (intros ->; by rewrite lookup_empty in Howner).
  rewrite (bool_decide_eq_false_2 _ Hne), (bool_decide_eq_true_2 _ Howner).
  cbn [negb orb]. split; [by destruct (_ && _)|]. split.
  - intros [Hst|Hkey].
    + by rewrite (bool_decide_eq_false_2 _ Hst).
    + rewrite Hkey. by rewrite andb_false_r.
  - intros key Hst Hkey Hnonempty.
    rewrite (bool_decide_eq_true_2 _ Hst), Hkey. cbn [Py.truthy].
    by rewrite (bool_decide_eq_false_2 _ Hnonempty).
Qed.

Lemma job_status_download_link_witness :
  let w := Scenario.world {[ "J0" := Cases.finished ]} [] in
  res (Api.job_status Cases.presign "J0" "u1" w)
  = Ok (Api.Response
          (<["downloadUrl" := "https://bucket/output/J0.mp4?sig"]> Cases.finished)).
Proof.
  intros w.
  destruct (job_status_download_link Cases.presign "J0" "u1" w Cases.finished
              eq_refl eq_refl eq_refl) as (_ & _ & Hlink).
  apply (Hlink "output/J0.mp4"); [reflexivity|reflexivity|discriminate].
Defined.
